(** * The Insighteer relay bot (sales-bot/bot.py), embedded in Rocq

    The bot relays messages between the users of a chat platform and one
    operator chat.  Its state is two Python dictionaries keyed by message
    ids; its effects are calls of the platform's outbound primitives and
    log records.  The embedding below follows bot.py function by function:
    the dictionaries are finite maps, a handler is a computation in a small
    state-and-exception monad over a [World] that carries the dictionaries
    and the chronological record of effects, and the platform is a function
    that answers every outbound call either with the id of the delivered
    message or with a transport error. *)

From Stdlib Require Import ZArith String Ascii List Bool Lia.
From stdpp Require Import base option list gmap strings pretty.

Open Scope string_scope.
Open Scope Z_scope.

(** ** Python values used by the bot *)

(** Characters that the source writes with an escape. *)
Definition nl : string := String "010"%char EmptyString.
Definition dquote : string := String "034"%char EmptyString.

(** Truth value of a [str]: only the empty string is false. *)
Definition str_truthy (s : string) : bool :=
  match s with
  | EmptyString => false
  | String _ _ => true
  end.

(** Truth value of an [Optional[str]]: [None] and the empty string are false. *)
Definition opt_str_truthy (o : option string) : bool :=
  match o with
  | Some s => str_truthy s
  | None => false
  end.

(** [a or d] where [a : Optional[str]] and [d : str]. *)
Definition py_or (a : option string) (d : string) : string :=
  match a with
  | Some s => if str_truthy s then s else d
  | None => d
  end.

(** Truth value of an [Optional[int]]: [None] and [0] are false. *)
Definition opt_int_truthy (o : option Z) : bool :=
  match o with
  | Some z => negb (z =? 0)
  | None => false
  end.

(** [str(n)] for an [int], which is what an f-string field [{n}] inserts:
    decimal digits, with a leading minus sign for a negative number. *)
Definition py_str (n : Z) : string := pretty n.

(** [s.startswith(p)]. *)
Definition startswith (p s : string) : bool := String.prefix p s.

(** [s.split(sep)] for a one-character separator: the text is cut at every
    occurrence of the separator, and two adjacent separators (or one at
    either end) give an empty field.  The result is never empty. *)
Fixpoint py_split (sep : ascii) (s : string) : list string :=
  match s with
  | EmptyString => [EmptyString]
  | String c r =>
      if Ascii.eqb c sep then EmptyString :: py_split sep r
      else match py_split sep r with
           | f :: fs => String c f :: fs
           | [] => [String c EmptyString]
           end
  end.

(** *** [int(s)] on text

    CPython skips leading white space, reads an optional sign, then decimal
    digits in which single underscores may separate digits, then skips
    trailing white space, and raises [ValueError] unless that consumed the
    whole text.  This is written out for ASCII text.  On text that holds a
    non-ASCII code point [int] also accepts the decimal digits and spaces of
    other scripts; that part of the builtin is left to the parameter
    [int_non_ascii] of [py_int].  Callback payloads are at most 64 bytes on
    this platform, far below the digit count at which CPython's conversion
    guard starts to refuse, so the guard is not part of the model. *)

Definition is_ascii_char (c : ascii) : bool := (nat_of_ascii c <? 128)%nat.

Fixpoint is_ascii (s : string) : bool :=
  match s with
  | EmptyString => true
  | String c r => is_ascii_char c && is_ascii r
  end.

(** The white space of [Py_ISSPACE]: tab, line feed, vertical tab, form
    feed, carriage return and space. *)
Definition py_isspace (c : ascii) : bool :=
  let n := nat_of_ascii c in
  ((9 <=? n) && (n <=? 13) || (n =? 32))%nat.

Definition digit_of (c : ascii) : option Z :=
  let n := nat_of_ascii c in
  if ((48 <=? n) && (n <=? 57))%nat then Some (Z.of_nat n - 48) else None.

Fixpoint skip_space (s : string) : string :=
  match s with
  | EmptyString => EmptyString
  | String c r => if py_isspace c then skip_space r else s
  end.

Definition all_space (s : string) : bool :=
  match skip_space s with
  | EmptyString => true
  | String _ _ => false
  end.

(** Where the scan of the digits stands: nothing read yet, just after a
    digit, or just after an underscore. *)
Inductive DigitState := AtStart | AfterDigit | AfterUnderscore.

Fixpoint int_digits (acc : Z) (st : DigitState) (s : string) : option Z :=
  match s with
  | EmptyString =>
      match st with
      | AfterDigit => Some acc
      | _ => None
      end
  | String c r =>
      match digit_of c with
      | Some d => int_digits (10 * acc + d) AfterDigit r
      | None =>
          match st with
          | AfterDigit =>
              if Ascii.eqb c "_" then int_digits acc AfterUnderscore r
              else if py_isspace c && all_space r then Some acc
              else None
          | _ => None
          end
      end
  end.

Definition int_ascii (s : string) : option Z :=
  match skip_space s with
  | String "-" r => Z.opp <$> int_digits 0 AtStart r
  | String "+" r => int_digits 0 AtStart r
  | r => int_digits 0 AtStart r
  end.

(** [int(s)]: [None] stands for [ValueError]. *)
Definition py_int (int_non_ascii : string -> option Z) (s : string) : option Z :=
  if is_ascii s then int_ascii s else int_non_ascii s.

(** ** Platform data read by the handlers *)

(** [message.from_user]: the sender. *)
Record User := {
  uid : Z;                       (* from_user.id *)
  full_name : string;            (* from_user.full_name *)
  username : option string       (* from_user.username *)
}.

(** A photo size, a video or a document; the bot reads only [file_id]. *)
Record File := { file_id : string }.

(** An inbound message, with the attributes bot.py reads. *)
Record Message := {
  chat_id : Z;                        (* message.chat.id *)
  from_user : option User;
  text : option string;
  caption : option string;
  photo : option (list File);         (* the sizes offered, smallest first *)
  video : option File;
  document : option File;
  reply_to_message : option Z         (* reply_to_message.message_id *)
}.

(** A button press: [callback.data]. *)
Record CallbackQuery := { data : option string }.

Inductive ParseMode := HTML | MARKDOWN | MARKDOWN_V2.

Record InlineKeyboardButton := {
  button_text : string;
  callback_data : string
}.

Record InlineKeyboardMarkup := {
  inline_keyboard : list (list InlineKeyboardButton)
}.

(** ** Outbound calls and the record of effects *)

(** The outbound primitives, with the arguments bot.py passes.
    [message.answer(t)] is [send_message] to the chat the message came from;
    [callback.answer(t, show_alert)] is [answer_callback_query]. *)
Inductive Call :=
| send_message (chat : Z) (body : string)
    (parse_mode : option ParseMode) (reply_markup : option InlineKeyboardMarkup)
| send_photo (chat : Z) (file : string) (body : string)
    (parse_mode : option ParseMode) (reply_markup : option InlineKeyboardMarkup)
| send_video (chat : Z) (file : string) (body : string)
    (parse_mode : option ParseMode) (reply_markup : option InlineKeyboardMarkup)
| send_document (chat : Z) (file : string) (body : string)
    (parse_mode : option ParseMode) (reply_markup : option InlineKeyboardMarkup)
| answer_callback_query (body : string) (show_alert : bool).

(** The exceptions that [except Exception] meets in bot.py. *)
Inductive Exn := TransportError | ValueError | IndexError | AttributeError.

(** One observable effect: an outbound call together with the platform's
    answer ([Some id]: delivered, with the id of the new message; [None]: the
    call raised), or a log record with its fixed text and, for an error, the
    exception that was caught. *)
Inductive Effect :=
| Called (c : Call) (answer : option Z)
| LogError (msg : string) (e : Exn)
| LogInfo (msg : string).

(** The chat a call delivers into, and the text or caption it carries. *)
Definition call_chat (c : Call) : option Z :=
  match c with
  | send_message chat _ _ _ | send_photo chat _ _ _ _
  | send_video chat _ _ _ _ | send_document chat _ _ _ _ => Some chat
  | answer_callback_query _ _ => None
  end.

Definition call_body (c : Call) : string :=
  match c with
  | send_message _ b _ _ | send_photo _ _ b _ _
  | send_video _ _ b _ _ | send_document _ _ b _ _ => b
  | answer_callback_query b _ => b
  end.

Definition call_markup (c : Call) : option InlineKeyboardMarkup :=
  match c with
  | send_message _ _ _ k | send_photo _ _ _ _ k
  | send_video _ _ _ _ k | send_document _ _ _ _ k => k
  | answer_callback_query _ _ => None
  end.

(** The calls of a record of effects, oldest first. *)
Fixpoint calls (t : list Effect) : list Call :=
  match t with
  | [] => []
  | Called c _ :: r => c :: calls r
  | _ :: r => calls r
  end.

(** The ids of the messages delivered into chat [chat], oldest first. *)
Fixpoint delivered_ids (chat : Z) (t : list Effect) : list Z :=
  match t with
  | [] => []
  | Called c (Some i) :: r =>
      match call_chat c with
      | Some ch => if ch =? chat then i :: delivered_ids chat r
                   else delivered_ids chat r
      | None => delivered_ids chat r
      end
  | _ :: r => delivered_ids chat r
  end.

(** ** The process state and the handler monad *)

(** The two module-level dictionaries and everything the process has done
    so far, oldest effect first. *)
Record World := {
  user_message_map : gmap Z Z;
  reply_message_map : gmap Z Z;
  trace : list Effect
}.

Definition initial_world : World :=
  {| user_message_map := ∅; reply_message_map := ∅; trace := [] |}.

Inductive Result (A : Type) :=
| Ok (a : A)
| Raise (e : Exn).
Arguments Ok {A} a.
Arguments Raise {A} e.

(** A handler body: runs in a world, ends normally or by raising. *)
Definition M (A : Type) : Type := World -> Result A * World.

Definition ret {A} (a : A) : M A := fun w => (Ok a, w).

Definition bind {A B} (m : M A) (k : A -> M B) : M B :=
  fun w =>
    match m w with
    | (Ok a, w') => k a w'
    | (Raise e, w') => (Raise e, w')
    end.

Definition raise {A} (e : Exn) : M A := fun w => (Raise e, w).

(** [try: body except Exception as e: handler e]. *)
Definition try_except {A} (body : M A) (handler : Exn -> M A) : M A :=
  fun w =>
    match body w with
    | (Ok a, w') => (Ok a, w')
    | (Raise e, w') => handler e w'
    end.

Declare Scope handler_scope.
Delimit Scope handler_scope with handler.
Notation "x <- m ;; k" := (bind m (fun x => k))
  (at level 100, m at next level, right associativity) : handler_scope.
Notation "m ;; k" := (bind m (fun _ => k))
  (at level 100, right associativity) : handler_scope.

Definition emit (e : Effect) : M unit :=
  fun w =>
    (Ok tt, {| user_message_map := user_message_map w;
               reply_message_map := reply_message_map w;
               trace := trace w ++ [e] |}).

(** [logger.error(f"<msg>: {e}", exc_info=True)]. *)
Definition logger_error (msg : string) (e : Exn) : M unit := emit (LogError msg e).

Definition logger_info (msg : string) : M unit := emit (LogInfo msg).

(** [user_message_map[k] = v]. *)
Definition user_message_map_set (k v : Z) : M unit :=
  fun w =>
    (Ok tt, {| user_message_map := <[k := v]> (user_message_map w);
               reply_message_map := reply_message_map w;
               trace := trace w |}).

(** [reply_message_map[k] = v]. *)
Definition reply_message_map_set (k v : Z) : M unit :=
  fun w =>
    (Ok tt, {| user_message_map := user_message_map w;
               reply_message_map := <[k := v]> (reply_message_map w);
               trace := trace w |}).

(** [reply_message_map.get(k)]. *)
Definition reply_message_map_get (k : Z) : M (option Z) :=
  fun w => (Ok (reply_message_map w !! k), w).

(** Attribute access on a value that may be [None]. *)
Definition attr {A} (o : option A) : M A :=
  match o with
  | Some a => ret a
  | None => raise AttributeError
  end.

(** The run of a handler from a world: how it ended and the world it left. *)
Definition outcome {A} (m : M A) (w : World) : Result A := fst (m w).
Definition after {A} (m : M A) (w : World) : World := snd (m w).

(** What a handler added to the record of effects of [w]. *)
Definition effects_of {A} (m : M A) (w : World) : list Effect :=
  drop (length (trace w)) (trace (after m w)).

(** ** Fixed texts of bot.py *)

Definition welcome_text : string :=
  "Привет! 👋" +:+ nl +:+ nl +:+
  "Insighteer позволяет тестировать маркетинговые креативы и стратегии." +:+ nl +:+ nl +:+
  "Можете задать любой вопрос, и мы вам обязательно ответим 👌".

Definition name_not_given : string := "Не указано".
Definition media_placeholder : string := "[Медиа-файл]".
Definition reply_prompt_text : string :=
  "<b>Ответ пользователю:</b>" +:+ nl +:+ nl +:+
  "Ответьте на это сообщение, чтобы отправить ответ пользователю.".
Definition reply_button_ack : string :=
  "Теперь ответьте на сообщение выше, чтобы отправить ответ пользователю".
Definition reply_button_failed : string := "Произошла ошибка. Попробуйте позже.".
Definition reply_sent_text : string := "✅ Ответ отправлен пользователю".
Definition reply_failed_text : string :=
  "Произошла ошибка при отправке ответа пользователю.".
Definition message_received_text : string :=
  "Ваше сообщение отправлено, мы вскоре вам ответим ☺️".
Definition message_failed_text : string :=
  "Произошла ошибка при отправке сообщения. Попробуйте позже.".

Definition start_error_log : string :=
  "Ошибка при отправке информации о /start в админский чат".
Definition reply_button_error_log : string :=
  "Ошибка при обработке кнопки 'Ответить'".
Definition admin_reply_error_log : string :=
  "Ошибка при отправке ответа пользователю".
Definition message_error_log : string := "Ошибка при обработке сообщения".
Definition motivation_error_log : string :=
  "Ошибка при отправке мотивирующей фразы".
Definition motivation_sent_log : string :=
  "Мотивирующая фраза отправлена в админский чат".

Definition MOTIVATIONAL_PHRASES : list string := [
  "Сегодня отличный день для новых достижений! 💪";
  "Каждый день - это новая возможность стать лучше! 🌟";
  "Верь в себя, и у тебя всё получится! ✨";
  "Твоя целеустремленность приведет к успеху! 🚀";
  "Сегодня ты сделаешь что-то великое! 💎";
  "Не останавливайся на достигнутом - впереди еще больше! 🎯";
  "Твоя энергия и энтузиазм вдохновляют! 🔥";
  "Каждый шаг приближает тебя к цели! 👣";
  "Сегодня ты станешь лучше, чем вчера! 📈";
  "Твоя настойчивость - ключ к успеху! 🔑";
  "Верь в свои силы - они безграничны! 💫";
  "Сегодня день, когда мечты становятся реальностью! 🌈";
  "Твоя страсть к делу создает чудеса! ⚡";
  "Каждая проблема - это возможность для роста! 🌱";
  "Сегодня ты покоришь новые вершины! ⛰️";
  "Твоя решимость меняет мир к лучшему! 🌍";
  "Не сдавайся - успех уже близко! 🎉";
  "Сегодня ты проявишь себя во всей красе! 🌺";
  "Твоя уверенность - твоя суперсила! 🦸";
  "Каждый день - это шанс стать легендой! 🏆"
].

(** ** Pure parts of the handlers *)

(** [create_reply_button]: one row with one button, whose payload is the
    f-string [reply_{user_id}]. *)
Definition create_reply_button (user_id : Z) : InlineKeyboardMarkup :=
  {| inline_keyboard :=
       [[ {| button_text := "Ответить";
             callback_data := "reply_" +:+ py_str user_id |} ]] |}.

(** [full_name or "Не указано"]. *)
Definition user_name_of (u : User) : string :=
  if str_truthy (full_name u) then full_name u else name_not_given.

(** The link to the profile: by handle when there is one, by id otherwise. *)
Definition profile_link_of (u : User) : string :=
  if opt_str_truthy (username u)
  then "https://t.me/" +:+ default EmptyString (username u)
  else "tg://user?id=" +:+ py_str (uid u).

(** The block of user data that ends both operator messages
    (lines 108-111 and 222-225 have the same text). *)
Definition user_data_block (u : User) : string :=
  "<b>Данные пользователя:</b>" +:+ nl +:+
  "ID: " +:+ py_str (uid u) +:+ nl +:+
  "Имя: " +:+ user_name_of u +:+ nl +:+
  "Профиль: <a href=" +:+ dquote +:+ profile_link_of u +:+ dquote +:+ ">t.me/" +:+
  (if opt_str_truthy (username u) then default EmptyString (username u)
   else "user?id=" +:+ py_str (uid u)) +:+
  "</a>".

(** [admin_message] of [cmd_start]. *)
Definition start_admin_message (u : User) : string :=
  "<b>Пользователь нажал /start</b>" +:+ nl +:+ nl +:+ user_data_block u.

(** [message.text or message.caption or "[Медиа-файл]"]. *)
Definition text_or_caption (message : Message) : string :=
  py_or (text message) (py_or (caption message) media_placeholder).

(** [admin_message] of [handle_message]. *)
Definition forward_admin_message (message : Message) (u : User) : string :=
  "<b>Сообщение от пользователя:</b>" +:+ nl +:+ nl +:+
  text_or_caption message +:+ nl +:+ nl +:+ user_data_block u.

(** ** The handlers *)

Section Bot.

(** [ADMIN_CHAT_ID_INT]: the operator chat, read from the environment. *)
Variable ADMIN_CHAT_ID_INT : Z.

(** The platform: its answer to an outbound call, which may depend on
    everything the process has done before the call. *)
Variable platform : list Effect -> Call -> option Z.

(** The filter [Command("start")] of the framework. *)
Variable command_start : Message -> bool.

(** [int] on text with a non-ASCII code point (see [py_int]). *)
Variable int_non_ascii : string -> option Z.

Local Open Scope handler_scope.

(** One awaited call of the bot: the call and its answer are recorded;
    a delivered call returns the new message id, a refused one raises. *)
Definition bot_call (c : Call) : M Z :=
  fun w =>
    let answer := platform (trace w) c in
    let w' := {| user_message_map := user_message_map w;
                 reply_message_map := reply_message_map w;
                 trace := trace w ++ [Called c answer] |} in
    match answer with
    | Some i => (Ok i, w')
    | None => (Raise TransportError, w')
    end.

(** [await message.answer(t)]. *)
Definition message_answer (message : Message) (t : string) : M unit :=
  _ <- bot_call (send_message (chat_id message) t None None) ;; ret tt.

(** [await callback.answer(t, show_alert=a)]; [a] is [false] where the
    source does not pass it. *)
Definition callback_answer (t : string) (a : bool) : M unit :=
  _ <- bot_call (answer_callback_query t a) ;; ret tt.

(** [int(s)], raising [ValueError]. *)
Definition int_of_text (s : string) : M Z :=
  match py_int int_non_ascii s with
  | Some z => ret z
  | None => raise ValueError
  end.

(** [l[i]], raising [IndexError]. *)
Definition item (l : list string) (i : nat) : M string :=
  match l !! i with
  | Some x => ret x
  | None => raise IndexError
  end.

(** bot.py, lines 83-125. *)
Definition cmd_start (message : Message) : M unit :=
  message_answer message welcome_text ;;
  try_except
    (sender <- attr (from_user message) ;;
     let user_id := uid sender in
     let admin_message := start_admin_message sender in
     sent_message <- bot_call (send_message ADMIN_CHAT_ID_INT admin_message
                                 (Some HTML) (Some (create_reply_button user_id))) ;;
     user_message_map_set sent_message user_id)
    (fun e => logger_error start_error_log e).

(** bot.py, lines 128-149. *)
Definition handle_reply_button (callback : CallbackQuery) : M unit :=
  try_except
    (payload <- attr (data callback) ;;
     field <- item (py_split "_" payload) 1 ;;
     user_id <- int_of_text field ;;
     reply_message <- bot_call (send_message ADMIN_CHAT_ID_INT reply_prompt_text
                                  (Some HTML) None) ;;
     reply_message_map_set reply_message user_id ;;
     callback_answer reply_button_ack false)
    (fun e =>
       logger_error reply_button_error_log e ;;
       callback_answer reply_button_failed true).

(** bot.py, lines 152-197.  [if not user_id: return] leaves the handler
    when the lookup gave [None] and also when it gave [0]. *)
Definition handle_admin_reply (message : Message) : M unit :=
  try_except
    (replied_message_id <- attr (reply_to_message message) ;;
     found <- reply_message_map_get replied_message_id ;;
     match found with
     | None => ret tt
     | Some user_id =>
         if user_id =? 0 then ret tt
         else
           let reply_text := text_or_caption message in
           (match photo message with
            | Some (p :: ps) =>
                bot_call (send_photo user_id (file_id (List.last (p :: ps) p))
                            reply_text None None)
            | _ =>
                match video message with
                | Some v =>
                    bot_call (send_video user_id (file_id v) reply_text None None)
                | None =>
                    match document message with
                    | Some d =>
                        bot_call (send_document user_id (file_id d) reply_text
                                    None None)
                    | None =>
                        bot_call (send_message user_id reply_text None None)
                    end
                end
            end) ;;
           message_answer message reply_sent_text
     end)
    (fun e =>
       logger_error admin_reply_error_log e ;;
       message_answer message reply_failed_text).

(** bot.py, lines 200-272. *)
Definition handle_message (message : Message) : M unit :=
  try_except
    (sender <- attr (from_user message) ;;
     let user_id := uid sender in
     let admin_message := forward_admin_message message sender in
     (match photo message with
      | Some (p :: ps) =>
          sent_message <- bot_call (send_photo ADMIN_CHAT_ID_INT
                                      (file_id (List.last (p :: ps) p)) admin_message
                                      (Some HTML) (Some (create_reply_button user_id))) ;;
          user_message_map_set sent_message user_id
      | _ =>
          match video message with
          | Some v =>
              sent_message <- bot_call (send_video ADMIN_CHAT_ID_INT (file_id v)
                                          admin_message (Some HTML)
                                          (Some (create_reply_button user_id))) ;;
              user_message_map_set sent_message user_id
          | None =>
              match document message with
              | Some d =>
                  sent_message <- bot_call (send_document ADMIN_CHAT_ID_INT (file_id d)
                                              admin_message (Some HTML)
                                              (Some (create_reply_button user_id))) ;;
                  user_message_map_set sent_message user_id
              | None =>
                  sent_message <- bot_call (send_message ADMIN_CHAT_ID_INT admin_message
                                              (Some HTML)
                                              (Some (create_reply_button user_id))) ;;
                  user_message_map_set sent_message user_id
              end
          end
      end) ;;
     message_answer message message_received_text)
    (fun e =>
       logger_error message_error_log e ;;
       message_answer message message_failed_text).

(** bot.py, lines 275-287.  [choice] is the position [random.choice]
    draws in the list of phrases. *)
Definition send_daily_motivation (choice : nat) : M unit :=
  try_except
    (let phrase :=
       nth (choice mod length MOTIVATIONAL_PHRASES) MOTIVATIONAL_PHRASES EmptyString in
     let message_text := "<b>Мотивация на день:</b>" +:+ nl +:+ nl +:+ phrase in
     _ <- bot_call (send_message ADMIN_CHAT_ID_INT message_text (Some HTML) None) ;;
     logger_info motivation_sent_log)
    (fun e => logger_error motivation_error_log e).

(** ** The router

    The framework offers a message to the handlers in the order in which
    bot.py registers them, and the first whose filter accepts it runs; a
    handler that returns has handled the event. *)

(** [lambda m: m.chat.id == ADMIN_CHAT_ID_INT and m.reply_to_message]. *)
Definition admin_reply_filter (m : Message) : bool :=
  (chat_id m =? ADMIN_CHAT_ID_INT) && bool_decide (is_Some (reply_to_message m)).

Definition dispatch_message (m : Message) : M unit :=
  if command_start m then cmd_start m
  else if admin_reply_filter m then handle_admin_reply m
  else handle_message m.

(** [lambda c: c.data.startswith("reply_")]; a press that no handler
    accepts is dropped. *)
Definition dispatch_callback_query (c : CallbackQuery) : M unit :=
  payload <- attr (data c) ;;
  if startswith "reply_" payload then handle_reply_button c else ret tt.

(** What reaches the process: an update of the platform or the daily
    firing of the scheduler. *)
Inductive Event :=
| MessageUpdate (m : Message)
| CallbackQueryUpdate (c : CallbackQuery)
| DailyMotivation (choice : nat).

Definition process (e : Event) : M unit :=
  match e with
  | MessageUpdate m => dispatch_message m
  | CallbackQueryUpdate c => dispatch_callback_query c
  | DailyMotivation choice => send_daily_motivation choice
  end.

(** The process handles one event at a time; an exception that leaves a
    handler is logged by the framework and the next event is taken. *)
Definition run (events : list Event) (w : World) : World :=
  fold_left (fun w e => after (process e) w) events w.

End Bot.

(** ** The scheduler (bot.py, lines 294-305)

    [CronTrigger(hour=8, minute=40, timezone=moscow_tz)].  A cron trigger
    fires at every instant whose wall-clock fields in the trigger's time zone
    match its field expressions.  A field that is not passed is [*] when a
    less significant field is passed, and takes its least value otherwise;
    bot.py passes no calendar field, so every day matches, and only the time
    of day is kept here. *)

Record CronTrigger := {
  hour : option nat;
  minute : option nat;
  second : option nat;
  timezone : string
}.

Inductive FieldExpr := EveryValue | Exactly (n : nat).

Definition hour_expr (t : CronTrigger) : FieldExpr :=
  match hour t with
  | Some h => Exactly h
  | None => EveryValue
  end.

Definition minute_expr (t : CronTrigger) : FieldExpr :=
  match minute t with
  | Some m => Exactly m
  | None =>
      match hour t, second t with
      | Some _, None => Exactly 0
      | _, _ => EveryValue
      end
  end.

Definition second_expr (t : CronTrigger) : FieldExpr :=
  match second t with
  | Some s => Exactly s
  | None =>
      match hour t, minute t with
      | None, None => EveryValue
      | _, _ => Exactly 0
      end
  end.

Definition field_matches (e : FieldExpr) (v : nat) : bool :=
  match e with
  | EveryValue => true
  | Exactly n => (v =? n)%nat
  end.

(** A time of day on the wall clock of the trigger's time zone. *)
Record WallClock := { wc_hour : nat; wc_minute : nat; wc_second : nat }.

Definition fires_at (t : CronTrigger) (c : WallClock) : bool :=
  field_matches (hour_expr t) (wc_hour c)
  && field_matches (minute_expr t) (wc_minute c)
  && field_matches (second_expr t) (wc_second c).

(** The trigger [main] registers for [send_daily_motivation]. *)
Definition daily_motivation_trigger : CronTrigger :=
  {| hour := Some 8%nat; minute := Some 40%nat; second := None;
     timezone := "Europe/Moscow" |}.

(** ** Notions used to state the properties *)

(** Every character of [s] satisfies [P]. *)
Fixpoint every_char (P : ascii -> Prop) (s : string) : Prop :=
  match s with
  | EmptyString => True
  | String c r => P c /\ every_char P r
  end.

Definition is_digit (c : ascii) : Prop := is_Some (digit_of c).

(** [message.photo] is false: it is [None] or an empty list. *)
Definition no_photo (m : Message) : Prop := photo m = None \/ photo m = Some [].

(** Two worlds that agree on everything but the forwarded-message table. *)
Definition same_view (w1 w2 : World) : Prop :=
  reply_message_map w1 = reply_message_map w2 /\ trace w1 = trace w2.

(** A computation that cannot tell such worlds apart. *)
Definition blind {A} (m : M A) : Prop :=
  forall w1 w2, same_view w1 w2 ->
    fst (m w1) = fst (m w2) /\ same_view (snd (m w1)) (snd (m w2)).

(** The same, said on worlds that are written out: whatever the
    forwarded-message table holds, the computation ends the same way, has
    the same effects and leaves the same reply-prompt table. *)
Definition ignores_forwarded_table {A} (m : M A) : Prop :=
  forall (forwarded1 forwarded2 prompts : gmap Z Z) (t : list Effect),
    let w1 := {| user_message_map := forwarded1; reply_message_map := prompts;
                 trace := t |} in
    let w2 := {| user_message_map := forwarded2; reply_message_map := prompts;
                 trace := t |} in
    outcome m w1 = outcome m w2
    /\ effects_of m w1 = effects_of m w2
    /\ reply_message_map (after m w1) = reply_message_map (after m w2).

(** How one event may change a table: not at all, or by binding the id of
    a message that the event delivered into [chat]. *)
Definition table_step (chat : Z) (old new : gmap Z Z)
    (added : list Effect) : Prop :=
  new = old
  \/ exists p u, new = <[p := u]> old /\ p ∈ delivered_ids chat added.

Definition grows (chat : Z) (w w' : World) : Prop :=
  exists added,
    trace w' = (trace w ++ added)%list
    /\ table_step chat (user_message_map w) (user_message_map w') added
    /\ table_step chat (reply_message_map w) (reply_message_map w') added.

(** Every key of either table is the id of a message delivered into [chat]. *)
Definition keys_delivered (chat : Z) (w : World) : Prop :=
  forall k,
    is_Some (user_message_map w !! k) \/ is_Some (reply_message_map w !! k) ->
    k ∈ delivered_ids chat (trace w).

(** ** Sample data *)

Definition sample_admin_chat : Z := 1000.

(** A platform that delivers every call; the new message gets an id that
    grows with the number of effects so far. *)
Definition delivering_platform : list Effect -> Call -> option Z :=
  fun t _ => Some (100 + Z.of_nat (length t)).

(** A platform that refuses the first call of the process and delivers
    the later ones. *)
Definition first_call_refused : list Effect -> Call -> option Z :=
  fun t _ =>
    match t with
    | [] => None
    | _ => Some (100 + Z.of_nat (length t))
    end.

(** A command filter that accepts exactly the text [/start]. *)
Definition plain_start_filter (m : Message) : bool :=
  match text m with
  | Some t => String.eqb t "/start"
  | None => false
  end.

Definition no_other_digits : string -> option Z := fun _ => None.

Definition alice : User :=
  {| uid := 42; full_name := "Alice"; username := Some "alice99" |}.

Definition operator : User :=
  {| uid := 7; full_name := "Operator"; username := None |}.

Definition text_message (chat : Z) (sender : User) (body : string)
    (reply : option Z) : Message :=
  {| chat_id := chat; from_user := Some sender; text := Some body;
     caption := None; photo := None; video := None; document := None;
     reply_to_message := reply |}.

(** Alice writes to the bot in her private chat. *)
Definition hello_from_alice : Message := text_message 42 alice "Hello" None.

(** Alice starts a session. *)
Definition start_from_alice : Message := text_message 42 alice "/start" None.

(** The operator writes in the operator chat without replying to anything. *)
Definition operator_remark : Message :=
  text_message sample_admin_chat operator "back in five minutes" None.

(** The operator replies in the operator chat to message 500. *)
Definition operator_reply : Message :=
  text_message sample_admin_chat operator "Hi Alice" (Some 500).

(** The operator replies with a photo offered in two sizes and a caption. *)
Definition operator_photo_reply : Message :=
  {| chat_id := sample_admin_chat; from_user := Some operator; text := None;
     caption := Some "Price list";
     photo := Some [ {| file_id := "small" |}; {| file_id := "large" |} ];
     video := Some {| file_id := "clip" |}; document := None;
     reply_to_message := Some 500 |}.

Definition world_with_prompt (prompt user : Z) : World :=
  {| user_message_map := ∅; reply_message_map := {[ prompt := user ]};
     trace := [] |}.

Definition press (payload : string) : CallbackQuery := {| data := Some payload |}.

(** Alice writes, the operator presses the button under the forwarded
    message, and then Alice starts a session and the operator answers the
    prompt (message 102). *)
Definition earlier_events : list Event :=
  [ MessageUpdate hello_from_alice; CallbackQueryUpdate (press "reply_42") ].

Definition later_events : list Event :=
  [ MessageUpdate start_from_alice;
    MessageUpdate (text_message sample_admin_chat operator "Hi Alice" (Some 102)) ].

(** ** Start-up (bot.py, lines 26-36)

    The module reads two environment variables and refuses to load, with a
    [ValueError], when one of them is missing or empty or when the operator
    chat is not the text of an integer. *)




(** ** Where the entries of the tables come from *)

(** [v] is the id of the sender of one of the messages among [events]. *)
Definition sent_by_a_sender (events : list Event) (v : Z) : Prop :=
  exists m sender,
    MessageUpdate m ∈ events /\ from_user m = Some sender /\ uid sender = v.

(** [v] is what [int] reads in the field of index 1 of the payload of one
    of the button presses among [events]. *)
Definition read_from_a_press (int_non_ascii : string -> option Z)
    (events : list Event) (v : Z) : Prop :=
  exists c payload field,
    CallbackQueryUpdate c ∈ events
    /\ data c = Some payload
    /\ startswith "reply_" payload = true
    /\ py_split "_" payload !! 1%nat = Some field
    /\ py_int int_non_ascii field = Some v.

(** Every value of the forwarded-message table is the id of a sender and
    every value of the reply-prompt table was read from a press. *)
Definition values_accounted_for (int_non_ascii : string -> option Z)
    (events : list Event) (w : World) : Prop :=
  (forall k v, user_message_map w !! k = Some v -> sent_by_a_sender events v)
  /\ (forall k v, reply_message_map w !! k = Some v ->
        read_from_a_press int_non_ascii events v).

(** ** The camera script (tapo/explore_tapo.py) *)

(** *** More of the builtins: [strip], [in], [split] with a limit, slices

    Text is kept in UTF-8.  [str.strip] removes from both ends the code
    points for which [str.isspace] holds: the ASCII controls 9 to 13 and 28
    to 31, the space, and U+0085, U+00A0, U+1680, U+2000 to U+200A, U+2028,
    U+2029, U+202F, U+205F and U+3000. *)

Definition utf8 (codes : list nat) : string :=
  string_of_list_ascii (map ascii_of_nat codes).

Definition whitespace_encodings : list string :=
  map utf8
    [ [9]; [10]; [11]; [12]; [13]; [28]; [29]; [30]; [31]; [32];
      [194; 133]; [194; 160]; [225; 154; 128];
      [226; 128; 128]; [226; 128; 129]; [226; 128; 130]; [226; 128; 131];
      [226; 128; 132]; [226; 128; 133]; [226; 128; 134]; [226; 128; 135];
      [226; 128; 136]; [226; 128; 137]; [226; 128; 138];
      [226; 128; 168]; [226; 128; 169]; [226; 128; 175];
      [226; 129; 159]; [227; 128; 128] ]%nat.

(** [s] without its prefix [p], when it has that prefix. *)
Fixpoint drop_prefix (p s : string) : option string :=
  match p, s with
  | EmptyString, _ => Some s
  | String a p', String b s' => if Ascii.eqb a b then drop_prefix p' s' else None
  | String _ _, EmptyString => None
  end.

(** [s] without one leading white-space code point, when it has one. *)
Definition drop_space (s : string) : option string :=
  fold_right (fun p found =>
                match drop_prefix p s with
                | Some r => Some r
                | None => found
                end) None whitespace_encodings.

Fixpoint lstrip_steps (steps : nat) (s : string) : string :=
  match steps with
  | O => s
  | S n =>
      match drop_space s with
      | Some r => lstrip_steps n r
      | None => s
      end
  end.

(** [s.lstrip()]. *)
Definition py_lstrip (s : string) : string := lstrip_steps (String.length s) s.

(** [s] is white space throughout. *)
Definition only_space (s : string) : bool :=
  match py_lstrip s with
  | EmptyString => true
  | String _ _ => false
  end.

(** [s.rstrip()]: the text up to its trailing white space. *)
Fixpoint py_rstrip (s : string) : string :=
  match s with
  | EmptyString => EmptyString
  | String c r => if only_space s then EmptyString else String c (py_rstrip r)
  end.

(** [s.strip()]. *)
Definition py_strip (s : string) : string := py_rstrip (py_lstrip s).

(** [s.split(sep, 1)] when [sep in s]: the text before the first separator
    and the text after it; [None] when the separator does not occur. *)
Fixpoint split_first (sep : ascii) (s : string) : option (string * string) :=
  match s with
  | EmptyString => None
  | String c r =>
      if Ascii.eqb c sep then Some (EmptyString, r)
      else match split_first sep r with
           | Some (before, rest) => Some (String c before, rest)
           | None => None
           end
  end.

(** [s.endswith(c)] for one character. *)
Fixpoint ends_with_char (c : ascii) (s : string) : bool :=
  match s with
  | EmptyString => false
  | String a EmptyString => Ascii.eqb a c
  | String _ r => ends_with_char c r
  end.

(** [s] without its last character. *)
Fixpoint drop_last (s : string) : string :=
  match s with
  | EmptyString => EmptyString
  | String _ EmptyString => EmptyString
  | String a r => String a (drop_last r)
  end.

(** [s[1:-1]]. *)
Definition slice_1_m1 (s : string) : string :=
  match s with
  | EmptyString => EmptyString
  | String _ r => drop_last r
  end.

(** *** [load_env_file] (lines 13-42) *)

(** What the function finds at [env_path]: no file; a file that is read to
    its end, with the lines the iteration yields; or a file whose reading
    raises after it yielded some lines ([open] failing is the case of no
    line). *)
Inductive EnvFile :=
| NoFile
| ReadToEnd (lines : list string)
| ReadFailed (lines : list string).

(** Lines 33-37: a value between two double quotes, or else between two
    single quotes, loses them. *)
Definition unquote (value : string) : string :=
  if startswith dquote value && ends_with_char "034" value then slice_1_m1 value
  else if startswith "'" value && ends_with_char "'" value then slice_1_m1 value
  else value.

(** The body of the loop, lines 24-38. *)
Definition env_line (env_vars : gmap string string) (line : string)
    : gmap string string :=
  let line := py_strip line in
  if negb (str_truthy line) || startswith "#" line then env_vars
  else
    match split_first "=" line with
    | Some (key, value) => <[py_strip key := unquote (py_strip value)]> env_vars
    | None => env_vars
    end.

Definition env_lines (lines : list string) : gmap string string :=
  fold_left env_line lines ∅.

(** The dictionary returned, and whether the warning was printed. *)
Definition load_env_file (file : EnvFile) : gmap string string * bool :=
  match file with
  | NoFile => (∅, false)
  | ReadToEnd lines => (env_lines lines, false)
  | ReadFailed lines => (env_lines lines, true)
  end.

(** *** The connection parameters of [main] (lines 449-491) *)

(** [a or b] on two optional texts. *)
Definition opt_or (a b : option string) : option string :=
  if opt_str_truthy a then a else b.

(** How [main] gets to the camera: it connects with a host, a user and a
    password; it returns because the password typed is empty; or [input]
    raises [EOFError] because nothing more can be read. *)
Inductive MainStart :=
| Connect (host user password : string)
| PasswordRequired
| InputEnded.

(** [typed] holds the lines that [input] will return, in order. *)
Definition main_start (env_vars : gmap string string)
    (getenv : string -> option string) (typed : list string) : MainStart :=
  let host := py_or (opt_or (env_vars !! "TAPO_HOST") (getenv "TAPO_HOST"))
                "192.168.0.113" in
  let user := py_or (opt_or (env_vars !! "TAPO_USER") (getenv "TAPO_USER")) "admin" in
  let password := opt_or (env_vars !! "TAPO_PASSWORD") (getenv "TAPO_PASSWORD") in
  if negb (opt_str_truthy password) then
    match typed with
    | host_line :: user_line :: password_line :: _ =>
        let host_input := py_strip host_line in
        let host := if str_truthy host_input then host_input else host in
        let user_input := py_strip user_line in
        let user := if str_truthy user_input then user_input else user in
        let password := py_strip password_line in
        if negb (str_truthy password) then PasswordRequired
        else Connect host user password
    | _ => InputEnded
    end
  else Connect host user (default EmptyString password).

(** *** [move_by_angle] (lines 144-168) *)

(** What the camera answers to [moveMotorStep]: a dictionary, of which the
    function reads [error_code], or an exception, which may or may not be a
    [ValueError]. *)
Inductive CameraAnswer :=
| Answered (error_code : option Z)
| CameraRaised (value_error : bool).

(** What the function prints after its heading, and the call it makes. *)
Inductive AngleAction :=
| SayOutOfRange                    (* "угол должен быть в диапазоне 0-359" *)
| SayMoving (angle : Z)            (* "Движение под углом ..." *)
| CallMoveMotorStep (angle : Z) (answer : CameraAnswer)
| SayMoved (angle : Z)             (* "Камера успешно повернулась ..." *)
| SayCameraError                   (* "Ошибка: {result}" *)
| SayNotAnInteger                  (* "введите целое число" *)
| SayFailed.                       (* "Ошибка при движении: {e}" *)

(** [typed] is what [input] returns, [None] when it raises [EOFError]. *)
Definition move_by_angle (int_non_ascii : string -> option Z)
    (camera : Z -> CameraAnswer) (typed : option string) : list AngleAction :=
  match typed with
  | None => [SayFailed]
  | Some line =>
      match py_int int_non_ascii (py_strip line) with
      | None => [SayNotAnInteger]
      | Some angle =>
          if negb ((0 <=? angle) && (angle <? 360)) then [SayOutOfRange]
          else
            SayMoving angle ::
            match camera angle with
            | Answered code =>
                CallMoveMotorStep angle (Answered code) ::
                (if bool_decide (code = Some 0) then [SayMoved angle]
                 else [SayCameraError])
            | CameraRaised value_error =>
                [ CallMoveMotorStep angle (CameraRaised value_error);
                  if value_error then SayNotAnInteger else SayFailed ]
            end
      end
  end.

(** *** Notions used to state the properties of the script *)

(** A byte that occurs in the encoding of a white-space code point. *)
Definition space_byte (c : ascii) : bool :=
  existsb (fun p => existsb (Ascii.eqb c) (list_ascii_of_string p))
    whitespace_encodings.

(** A letter, a digit or an underscore. *)
Definition is_name_char (c : ascii) : bool :=
  let n := nat_of_ascii c in
  ((65 <=? n) && (n <=? 90) || (97 <=? n) && (n <=? 122)
   || (48 <=? n) && (n <=? 57) || (n =? 95))%nat.

(** A name as configuration files use them: not empty, of such characters. *)
Definition is_name (s : string) : Prop :=
  s <> EmptyString /\ every_char (fun c => is_name_char c = true) s.



(** A configuration file as the iteration yields it. *)
Definition sample_env_lines : list string :=
  [ "# camera" +:+ nl;
    nl;
    "TAPO_HOST = 192.168.0.50" +:+ nl;
    "TAPO_USER=" +:+ dquote +:+ "viewer" +:+ dquote +:+ nl;
    "TAPO_PASSWORD='p=ss w0rd'" +:+ nl;
    "TAPO_HOST=10.0.0.7" ].

(** * Facts *)

(** ** The builtins on sample texts *)

Example py_split_reply : py_split "_" "reply_42" = ["reply"; "42"].
Proof. reflexivity. Qed.

Example py_split_extra : py_split "_" "reply_42_x" = ["reply"; "42"; "x"].
Proof. reflexivity. Qed.

Example py_split_bare : py_split "_" "reply_" = ["reply"; EmptyString].
Proof. reflexivity. Qed.

Example int_ascii_plain : int_ascii "42" = Some 42.
Proof. reflexivity. Qed.

Example int_ascii_padded : int_ascii " -007 " = Some (-7).
Proof. reflexivity. Qed.

Example int_ascii_grouped : int_ascii "1_000" = Some 1000.
Proof. reflexivity. Qed.

Example int_ascii_letters : int_ascii "abc" = None.
Proof. reflexivity. Qed.

Example int_ascii_empty : int_ascii EmptyString = None.
Proof. reflexivity. Qed.

Example int_ascii_sign_only : int_ascii "-" = None.
Proof. reflexivity. Qed.

Example int_ascii_double_underscore : int_ascii "1__0" = None.
Proof. reflexivity. Qed.

Example py_str_negative : py_str (-5) = "-5".
Proof. reflexivity. Qed.

Example start_block_of_alice :
  start_admin_message alice
  = "<b>Пользователь нажал /start</b>" +:+ nl +:+ nl +:+
    "<b>Данные пользователя:</b>" +:+ nl +:+
    "ID: 42" +:+ nl +:+
    "Имя: Alice" +:+ nl +:+
    "Профиль: <a href=" +:+ dquote +:+ "https://t.me/alice99" +:+ dquote +:+
    ">t.me/alice99</a>".
Proof. reflexivity. Qed.

(** ** The builtins in general *)

Section Builtins.

Lemma every_char_app P s1 s2 :
  every_char P s1 -> every_char P s2 -> every_char P (s1 +:+ s2).
Proof.
  induction s1 as [|c r IH]; simpl; [tauto|].
  intros [Hc Hr] H2. split; [exact Hc | exact (IH Hr H2)].
Qed.

Lemma every_char_weaken (P Q : ascii -> Prop) s :
  (forall c, P c -> Q c) -> every_char P s -> every_char Q s.
Proof.
  intros HPQ. induction s as [|c r IH]; simpl; [tauto|].
  intros [Hc Hr]. split; [apply HPQ, Hc | apply IH, Hr].
Qed.

Lemma pretty_N_char_digit (x : N) :
  (x < 10)%N -> digit_of (pretty_N_char x) = Some (Z.of_N x).
Proof.
  intros Hx.
  assert (x = 0 \/ x = 1 \/ x = 2 \/ x = 3 \/ x = 4 \/ x = 5 \/ x = 6
          \/ x = 7 \/ x = 8 \/ x = 9)%N as Hcases by lia.
  repeat (destruct Hcases as [->|Hcases]; [reflexivity|]).
  subst x. reflexivity.
Qed.

Lemma pretty_N_go_digits (x : N) (s : string) :
  every_char is_digit s -> every_char is_digit (pretty_N_go x s).
Proof.
  revert s. induction (N.lt_wf_0 x) as [x _ IH]. intros s Hs.
  destruct (decide (x = 0)%N) as [->|Hx].
  - rewrite pretty_N_go_0. exact Hs.
  - rewrite pretty_N_go_step by lia. apply IH.
    + apply N.div_lt; lia.
    + simpl. split; [|exact Hs].
      unfold is_digit. rewrite pretty_N_char_digit; [eauto|].
      apply N.mod_lt. lia.
Qed.

(** Reading back the digits that [pretty_N_go] puts in front of [s]. *)
Lemma int_digits_pretty_N_go (x : N) :
  (0 < x)%N ->
  forall s, exists k : Z, 0 <= k /\ forall acc st,
    int_digits acc st (pretty_N_go x s)
    = int_digits (acc * 10 ^ k + Z.of_N x) AfterDigit s.
Proof.
  induction (N.lt_wf_0 x) as [x _ IH]. intros Hx s.
  rewrite pretty_N_go_step by exact Hx.
  assert (Hd : digit_of (pretty_N_char (x `mod` 10)) = Some (Z.of_N (x `mod` 10)))
    by (apply pretty_N_char_digit, N.mod_lt; lia).
  assert (Hsplit : Z.of_N x = 10 * Z.of_N (x `div` 10) + Z.of_N (x `mod` 10)).
  { rewrite <- (N2Z.inj_mul 10), <- N2Z.inj_add. f_equal.
    apply (N.div_mod x 10). lia. }
  destruct (decide (x `div` 10 = 0)%N) as [Hq|Hq].
  - exists 1. split; [lia|]. intros acc st.
    rewrite Hq, pretty_N_go_0. simpl. rewrite Hd.
    f_equal. rewrite Hsplit, Hq. simpl (Z.of_N 0). lia.
  - destruct (IH (x `div` 10)%N) with (s := String (pretty_N_char (x `mod` 10)) s)
      as (k & Hk & Hgo).
    + apply N.div_lt; lia.
    + apply N.neq_0_lt_0. exact Hq.
    + exists (k + 1). split; [lia|]. intros acc st.
      rewrite Hgo. simpl. rewrite Hd. f_equal.
      rewrite Z.pow_add_r by lia. rewrite Hsplit. lia.
Qed.

Lemma int_digits_pretty_positive (p : positive) :
  int_digits 0 AtStart (pretty (N.pos p)) = Some (Z.pos p).
Proof.
  unfold pretty, pretty_N. rewrite decide_False by discriminate.
  destruct (int_digits_pretty_N_go (N.pos p)) with (s := EmptyString)
    as (k & _ & Hgo); [lia|].
  rewrite Hgo. simpl. f_equal.
Qed.

Lemma pretty_positive_digits (p : positive) :
  every_char is_digit (pretty (N.pos p)).
Proof.
  unfold pretty, pretty_N. rewrite decide_False by discriminate.
  apply pretty_N_go_digits. exact I.
Qed.

Lemma digit_not_space c : is_digit c -> py_isspace c = false.
Proof.
  unfold is_digit, digit_of, py_isspace. intros [d Hd].
  destruct (48 <=? nat_of_ascii c)%nat eqn:H1; simpl in Hd; [|discriminate].
  destruct (nat_of_ascii c <=? 57)%nat eqn:H2; [|discriminate].
  apply Nat.leb_le in H1. apply Nat.leb_le in H2.
  rewrite orb_false_iff, andb_false_iff, Nat.eqb_neq, !Nat.leb_gt. lia.
Qed.

Lemma digit_is_ascii c : is_digit c -> is_ascii_char c = true.
Proof.
  unfold is_digit, digit_of, is_ascii_char. intros [d Hd].
  destruct (48 <=? nat_of_ascii c)%nat eqn:H1; simpl in Hd; [|discriminate].
  destruct (nat_of_ascii c <=? 57)%nat eqn:H2; [|discriminate].
  apply Nat.leb_le in H2. apply Nat.ltb_lt. lia.
Qed.

Lemma digit_not_char c (x : ascii) :
  digit_of x = None -> is_digit c -> Ascii.eqb c x = false.
Proof.
  intros Hx [d Hd]. apply Ascii.eqb_neq. intros ->. congruence.
Qed.

Lemma every_char_is_ascii s :
  every_char (fun c => is_ascii_char c = true) s -> is_ascii s = true.
Proof.
  induction s as [|c r IH]; simpl; [reflexivity|].
  intros [-> Hr]. exact (IH Hr).
Qed.

Lemma int_ascii_minus r :
  int_ascii (String "-" r) = Z.opp <$> int_digits 0 AtStart r.
Proof. reflexivity. Qed.

Lemma int_ascii_digit_first c r :
  is_digit c -> int_ascii (String c r) = int_digits 0 AtStart (String c r).
Proof.
  intros Hc. unfold int_ascii.
  assert (Hskip : skip_space (String c r) = String c r)
    by (simpl; rewrite (digit_not_space c Hc); reflexivity).
  rewrite Hskip.
  assert (Hm : Ascii.eqb c "-" = false) by (apply digit_not_char; done).
  assert (Hp : Ascii.eqb c "+" = false) by (apply digit_not_char; done).
  apply Ascii.eqb_neq in Hm, Hp.
  destruct c as [[] [] [] [] [] [] [] []]; try reflexivity; congruence.
Qed.

(** What [str] writes for a number: digits, after a minus sign for a
    negative one. *)
Lemma py_str_shape (n : Z) :
  exists digits, every_char is_digit digits
    /\ (py_str n = digits \/ py_str n = String "-" digits)
    /\ int_ascii (py_str n) = Some n.
Proof.
  unfold py_str, pretty, pretty_Z. destruct n as [|p|p].
  - exists "0". repeat split; [exists 0; reflexivity | by left].
  - exists (pretty (N.pos p)).
    pose proof (pretty_positive_digits p) as Hdig.
    pose proof (int_digits_pretty_positive p) as Hval.
    change (pretty p) with (pretty (N.pos p)).
    repeat split; [exact Hdig | by left |].
    destruct (pretty (N.pos p)) as [|c r] eqn:Hs; [discriminate|].
    destruct Hdig as [Hc _].
    rewrite int_ascii_digit_first by exact Hc. exact Hval.
  - exists (pretty (N.pos p)).
    pose proof (pretty_positive_digits p) as Hdig.
    change (pretty p) with (pretty (N.pos p)).
    change ("-" +:+ pretty (N.pos p)) with (String "-" (pretty (N.pos p))).
    repeat split; [exact Hdig | by right |].
    rewrite int_ascii_minus, int_digits_pretty_positive. reflexivity.
Qed.

Lemma py_str_is_ascii (n : Z) : is_ascii (py_str n) = true.
Proof.
  destruct (py_str_shape n) as (digits & Hdig & Hshape & _).
  assert (Hd : is_ascii digits = true).
  { apply every_char_is_ascii.
    eapply every_char_weaken; [|exact Hdig]. apply digit_is_ascii. }
  destruct Hshape as [-> | ->]; [exact Hd | simpl; exact Hd].
Qed.

(** [int(str(n)) == n]. *)
Lemma py_int_py_str (other : string -> option Z) (n : Z) :
  py_int other (py_str n) = Some n.
Proof.
  unfold py_int. rewrite py_str_is_ascii.
  destruct (py_str_shape n) as (_ & _ & _ & H). exact H.
Qed.

(** A text without the separator is one field. *)
Lemma py_split_one_field sep s :
  every_char (fun c => Ascii.eqb c sep = false) s -> py_split sep s = [s].
Proof.
  induction s as [|c r IH]; simpl; [reflexivity|].
  intros [-> Hr]. rewrite (IH Hr). reflexivity.
Qed.

Lemma py_split_nonempty sep s : exists f fs, py_split sep s = f :: fs.
Proof.
  destruct s as [|c r]; simpl; [eauto|].
  destruct (Ascii.eqb c sep); [eauto|].
  destruct (py_split sep r); eauto.
Qed.

(** A field, the separator, and the rest. *)
Lemma py_split_field sep f rest :
  every_char (fun c => Ascii.eqb c sep = false) f ->
  py_split sep (f +:+ String sep rest) = f :: py_split sep rest.
Proof.
  induction f as [|c r IH]; simpl.
  - intros _. rewrite Ascii.eqb_refl. reflexivity.
  - intros [-> Hr]. rewrite (IH Hr). reflexivity.
Qed.

Lemma py_str_no_underscore (n : Z) :
  every_char (fun c => Ascii.eqb c "_" = false) (py_str n).
Proof.
  destruct (py_str_shape n) as (digits & Hdig & Hshape & _).
  assert (Hd : every_char (fun c => Ascii.eqb c "_" = false) digits).
  { eapply every_char_weaken; [|exact Hdig].
    intros c Hc. apply digit_not_char; done. }
  destruct Hshape as [-> | ->]; [exact Hd | simpl; split; [reflexivity | exact Hd]].
Qed.

(** The payload of the reply button splits into the prefix and the id. *)
Lemma py_split_reply_payload (n : Z) :
  py_split "_" ("reply_" +:+ py_str n) = ["reply"; py_str n].
Proof.
  change ("reply_" +:+ py_str n) with ("reply" +:+ String "_" (py_str n)).
  rewrite py_split_field by (simpl; tauto).
  rewrite py_split_one_field by apply py_str_no_underscore. reflexivity.
Qed.

(** A payload that starts with [reply_] has a field of index 1: the text
    up to the next underscore. *)
Lemma startswith_reply_field payload :
  startswith "reply_" payload = true ->
  exists rest, payload = "reply_" +:+ rest
    /\ py_split "_" payload !! 1%nat = head (py_split "_" rest)
    /\ is_Some (py_split "_" payload !! 1%nat).
Proof.
  unfold startswith. intros H.
  destruct payload as [|c1 [|c2 [|c3 [|c4 [|c5 [|c6 rest]]]]]]; simpl in H;
    try discriminate;
    repeat match type of H with
           | (if ?d then _ else _) = true => destruct d; [subst|discriminate]
           end;
    try discriminate.
  exists rest. split; [reflexivity|].
  change (String "r" _) with ("reply" +:+ String "_" rest).
  rewrite py_split_field by (simpl; tauto).
  destruct (py_split_nonempty "_" rest) as (f & fs & ->).
  simpl. eauto.
Qed.

End Builtins.

(** ** The handlers *)

Lemma received_text_is_not_failed_text : message_received_text <> message_failed_text.
Proof. intros H. vm_compute in H. discriminate. Qed.

Lemma startswith_app p s : startswith p (p +:+ s) = true.
Proof.
  unfold startswith. induction p as [|a p IH]; simpl.
  - destruct s; reflexivity.
  - destruct (ascii_dec a a); [exact IH | congruence].
Qed.

Lemma text_or_caption_cases message :
  (forall t, text message = Some t -> t <> EmptyString -> text_or_caption message = t)
  /\ (opt_str_truthy (text message) = false ->
      forall t, caption message = Some t -> t <> EmptyString ->
                text_or_caption message = t)
  /\ (opt_str_truthy (text message) = false ->
      opt_str_truthy (caption message) = false ->
      text_or_caption message = media_placeholder).
Proof.
  unfold text_or_caption, py_or, opt_str_truthy.
  destruct (text message) as [[|c s]|], (caption message) as [[|c' s']|]; simpl;
    repeat split; intros; simplify_eq; try done.
Qed.

Lemma effects_of_unchanged {A} (m : M A) w r : m w = (r, w) -> effects_of m w = [].
Proof. unfold effects_of, after. intros ->. simpl. apply drop_all. Qed.

Lemma delivered_ids_app chat t1 t2 :
  delivered_ids chat (t1 ++ t2)
  = (delivered_ids chat t1 ++ delivered_ids chat t2)%list.
Proof.
  induction t1 as [|e t1 IH]; simpl; [reflexivity|].
  destruct e as [c [i|]| |]; try exact IH.
  destruct (call_chat c) as [ch|]; [|exact IH].
  destruct (ch =? chat); [simpl; f_equal|]; exact IH.
Qed.

Lemma table_step_keys chat tb tb' added k :
  table_step chat tb tb' added ->
  is_Some (tb' !! k) -> is_Some (tb !! k) \/ k ∈ delivered_ids chat added.
Proof.
  intros [-> | (p & u & -> & Hp)] Hk; [by left|].
  destruct (decide (p = k)) as [<-|Hne]; [by right|].
  left. by rewrite lookup_insert_ne in Hk.
Qed.

Lemma table_step_keeps chat tb tb' old added k v :
  table_step chat tb tb' added ->
  NoDup (old ++ delivered_ids chat added) ->
  k ∈ old ->
  tb !! k = Some v -> tb' !! k = Some v.
Proof.
  intros [-> | (p & u & -> & Hp)] Hnd Hk Hv; [exact Hv|].
  rewrite lookup_insert_ne; [exact Hv|].
  intros ->. apply NoDup_app in Hnd as (_ & Hdisj & _). exact (Hdisj k Hk Hp).
Qed.

Lemma grows_refl chat w : grows chat w w.
Proof. exists []. rewrite app_nil_r. repeat split; by left. Qed.

Lemma grows_keys_delivered chat w w' :
  grows chat w w' -> keys_delivered chat w -> keys_delivered chat w'.
Proof.
  intros (added & Ht & Hu & Hr) Hinv k Hk.
  rewrite Ht, delivered_ids_app, elem_of_app.
  destruct Hk as [Hk|Hk].
  - destruct (table_step_keys _ _ _ _ _ Hu Hk) as [H|H]; [left; apply Hinv|]; auto.
  - destruct (table_step_keys _ _ _ _ _ Hr Hk) as [H|H]; [left; apply Hinv|]; auto.
Qed.

Lemma keys_delivered_initial chat : keys_delivered chat initial_world.
Proof. intros k [[v Hv]|[v Hv]]; simpl in Hv; by rewrite lookup_empty in Hv. Qed.

(** *** Blindness to the forwarded-message table, piece by piece *)

Lemma blind_ret {A} (a : A) : blind (ret a).
Proof. intros w1 w2 H. split; [reflexivity | exact H]. Qed.

Lemma blind_raise {A} e : blind (@raise A e).
Proof. intros w1 w2 H. split; [reflexivity | exact H]. Qed.

Lemma blind_bind {A B} (m : M A) (k : A -> M B) :
  blind m -> (forall a, blind (k a)) -> blind (bind m k).
Proof.
  intros Hm Hk w1 w2 H. unfold bind.
  destruct (Hm w1 w2 H) as [Hr Hv].
  destruct (m w1) as [[a1|e1] w1'], (m w2) as [[a2|e2] w2']; simpl in *;
    simplify_eq; [apply Hk; exact Hv | split; [reflexivity | exact Hv]].
Qed.

Lemma blind_try_except {A} (m : M A) (h : Exn -> M A) :
  blind m -> (forall e, blind (h e)) -> blind (try_except m h).
Proof.
  intros Hm Hh w1 w2 H. unfold try_except.
  destruct (Hm w1 w2 H) as [Hr Hv].
  destruct (m w1) as [[a1|e1] w1'], (m w2) as [[a2|e2] w2']; simpl in *;
    simplify_eq; [split; [reflexivity | exact Hv] | apply Hh; exact Hv].
Qed.

Lemma blind_emit e : blind (emit e).
Proof.
  intros w1 w2 [Hr Ht]. unfold emit, same_view. simpl. rewrite Hr, Ht. done.
Qed.

Lemma blind_user_message_map_set k v : blind (user_message_map_set k v).
Proof. intros w1 w2 H. split; [reflexivity | exact H]. Qed.

Lemma blind_reply_message_map_set k v : blind (reply_message_map_set k v).
Proof.
  intros w1 w2 [Hr Ht]. unfold reply_message_map_set, same_view. simpl.
  rewrite Hr, Ht. done.
Qed.

Lemma blind_reply_message_map_get k : blind (reply_message_map_get k).
Proof.
  intros w1 w2 [Hr Ht]. unfold reply_message_map_get, same_view. simpl.
  rewrite Hr. done.
Qed.

Lemma blind_attr {A} (o : option A) : blind (attr o).
Proof. destruct o; [apply blind_ret | apply blind_raise]. Qed.

Lemma blind_ignores {A} (m : M A) : blind m -> ignores_forwarded_table m.
Proof.
  intros Hm f1 f2 rm t w1 w2.
  destruct (Hm w1 w2) as (Ho & Hr & Ht); [split; reflexivity|].
  unfold outcome, effects_of, after. rewrite Ho, Hr, Ht. done.
Qed.

Create HintDb blind discriminated.

#[global] Hint Resolve blind_ret blind_raise blind_emit blind_user_message_map_set
  blind_reply_message_map_set blind_reply_message_map_get blind_attr : blind.

Section HandlerFacts.

Variable ADMIN_CHAT_ID_INT : Z.
Variable platform : list Effect -> Call -> option Z.
Variable command_start : Message -> bool.
Variable int_non_ascii : string -> option Z.

(** Opens a handler down to the platform's answers. *)
Ltac unfold_handler :=
  unfold handle_admin_reply, handle_message, handle_reply_button, cmd_start,
    send_daily_motivation, message_answer, callback_answer, int_of_text, item,
    try_except, bind, attr, reply_message_map_get, reply_message_map_set,
    user_message_map_set, logger_error, logger_info, emit, bot_call, ret, raise.

(** One case per answer of the platform. *)
Ltac case_platform :=
  repeat match goal with
         | |- context [platform ?t ?c] =>
             let a := fresh "answer" in
             let H := fresh "Hanswer" in
             destruct (platform t c) as [a|] eqn:H; simpl
         end.

(** One case per branch of the chain photo, video, document, text. *)
Ltac case_attachment message :=
  destruct (photo message) as [[|? ?]|];
  [ destruct (video message) as [?|]; [| destruct (document message) as [?|] ]
  |
  | destruct (video message) as [?|]; [| destruct (document message) as [?|] ] ].

(** Brings the effects of a handler into the form of an explicit list. *)
Ltac effects_done := rewrite <- ?app_assoc, drop_app_length; simpl.

(** A call is not among the listed ones. *)
Ltac distinct_calls :=
  rewrite ?not_elem_of_cons; repeat split;
  [ try (intros Heq; discriminate);
    try (intros Heq; injection Heq; intros;
         first [ discriminate
               | exfalso; eauto using received_text_is_not_failed_text ]) ..
  | apply not_elem_of_nil ].

(** Closes a goal [grows] once both worlds are explicit. *)
Ltac grows_done :=
  unfold grows; simpl; rewrite <- ?app_assoc; eexists; split; [reflexivity|];
  unfold table_step; simpl; rewrite ?Z.eqb_refl;
  split;
  first [ left; reflexivity
        | right; eexists _, _; split; [reflexivity|];
          repeat (first [ apply list_elem_of_here
                        | apply list_elem_of_further
                        | match goal with
                          | |- context [if ?b then _ else _] => destruct b
                          end ]) ].

Ltac blind_step :=
  match goal with
  | |- blind (bind _ _) => apply blind_bind; [|intros ?]
  | |- blind (try_except _ _) => apply blind_try_except; [|intros ?]
  | |- blind (match ?x with _ => _ end) => destruct x
  | |- blind _ => solve [auto with blind]
  end.

(** *** Routing *)

Lemma dispatch_reply_payload c payload :
  data c = Some payload ->
  startswith "reply_" payload = true ->
  dispatch_callback_query ADMIN_CHAT_ID_INT platform int_non_ascii c
  = handle_reply_button ADMIN_CHAT_ID_INT platform int_non_ascii c.
Proof.
  intros Hd Hp. unfold dispatch_callback_query, bind, attr, ret.
  rewrite Hd. simpl. rewrite Hp. reflexivity.
Qed.

Lemma dispatch_admin_reply m :
  command_start m = false ->
  chat_id m = ADMIN_CHAT_ID_INT ->
  is_Some (reply_to_message m) ->
  dispatch_message ADMIN_CHAT_ID_INT platform command_start m
  = handle_admin_reply platform m.
Proof.
  intros Hcmd Hchat [r Hr]. unfold dispatch_message, admin_reply_filter.
  rewrite Hcmd, Hchat, Hr, Z.eqb_refl. reflexivity.
Qed.

Lemma dispatch_plain_message m :
  command_start m = false ->
  reply_to_message m = None ->
  dispatch_message ADMIN_CHAT_ID_INT platform command_start m
  = handle_message ADMIN_CHAT_ID_INT platform m.
Proof.
  intros Hcmd Hr. unfold dispatch_message, admin_reply_filter.
  rewrite Hcmd, Hr, andb_false_r. reflexivity.
Qed.

(** *** The operator's reply *)

Lemma handle_admin_reply_untracked message w r :
  reply_to_message message = Some r ->
  reply_message_map w !! r = None ->
  handle_admin_reply platform message w = (Ok tt, w).
Proof.
  intros Hr Hl. unfold_handler. rewrite Hr. simpl. rewrite Hl. reflexivity.
Qed.

Lemma handle_admin_reply_zero message w r :
  reply_to_message message = Some r ->
  reply_message_map w !! r = Some 0 ->
  handle_admin_reply platform message w = (Ok tt, w).
Proof.
  intros Hr Hl. unfold_handler. rewrite Hr. simpl. rewrite Hl. reflexivity.
Qed.

(** Every message that is not a reply reaches a handler that calls the
    platform. *)
Lemma non_reply_message_is_answered m w :
  reply_to_message m = None ->
  calls (effects_of (dispatch_message ADMIN_CHAT_ID_INT platform command_start m) w)
  <> [].
Proof.
  intros Hr. unfold dispatch_message, admin_reply_filter. rewrite Hr.
  rewrite andb_false_r.
  unfold effects_of, after. destruct w as [um rm t]; simpl.
  destruct (command_start m); unfold_handler; simpl.
  - case_platform; destruct (from_user m); simpl; case_platform;
      effects_done; discriminate.
  - destruct (from_user m); simpl.
    + case_attachment m; simpl; case_platform; effects_done; discriminate.
    + case_platform; effects_done; discriminate.
Qed.

(** *** Growth of the tables, handler by handler *)

Lemma cmd_start_grows m w :
  grows ADMIN_CHAT_ID_INT w (after (cmd_start ADMIN_CHAT_ID_INT platform m) w).
Proof.
  unfold after. destruct w as [um rm t]. unfold_handler. simpl.
  case_platform; destruct (from_user m); simpl; case_platform; grows_done.
Qed.

Lemma handle_message_grows m w :
  grows ADMIN_CHAT_ID_INT w (after (handle_message ADMIN_CHAT_ID_INT platform m) w).
Proof.
  unfold after. destruct w as [um rm t]. unfold_handler. simpl.
  destruct (from_user m); simpl;
    [ case_attachment m; simpl | ]; case_platform; grows_done.
Qed.

Lemma handle_admin_reply_grows m w :
  grows ADMIN_CHAT_ID_INT w (after (handle_admin_reply platform m) w).
Proof.
  unfold after. destruct w as [um rm t]. unfold_handler. simpl.
  destruct (reply_to_message m) as [r|]; simpl;
    [ destruct (rm !! r) as [u|]; [destruct (u =? 0)|]; simpl;
      try case_attachment m; simpl | ];
    case_platform; try apply grows_refl; grows_done.
Qed.

Lemma handle_reply_button_grows c w :
  grows ADMIN_CHAT_ID_INT w
    (after (handle_reply_button ADMIN_CHAT_ID_INT platform int_non_ascii c) w).
Proof.
  unfold after. destruct w as [um rm t]. unfold_handler. simpl.
  destruct (data c) as [payload|]; simpl;
    [ destruct (py_split "_" payload !! 1%nat) as [field|]; simpl;
      [ destruct (py_int int_non_ascii field); simpl | ] | ];
    case_platform; grows_done.
Qed.

Lemma send_daily_motivation_grows n w :
  grows ADMIN_CHAT_ID_INT w
    (after (send_daily_motivation ADMIN_CHAT_ID_INT platform n) w).
Proof.
  unfold after. destruct w as [um rm t]. unfold_handler. simpl.
  case_platform; grows_done.
Qed.

Lemma process_grows e w :
  grows ADMIN_CHAT_ID_INT w
    (after (process ADMIN_CHAT_ID_INT platform command_start int_non_ascii e) w).
Proof.
  destruct e as [m|c|n]; simpl.
  - unfold dispatch_message. destruct (command_start m); [apply cmd_start_grows|].
    destruct (admin_reply_filter ADMIN_CHAT_ID_INT m);
      [apply handle_admin_reply_grows | apply handle_message_grows].
  - unfold dispatch_callback_query, after, bind, attr.
    destruct (data c) as [payload|] eqn:Hd; simpl; [|apply grows_refl].
    destruct (startswith "reply_" payload); [|apply grows_refl].
    apply handle_reply_button_grows.
  - apply send_daily_motivation_grows.
Qed.

(** *** Runs *)

Lemma run_cons e es w :
  run ADMIN_CHAT_ID_INT platform command_start int_non_ascii (e :: es) w
  = run ADMIN_CHAT_ID_INT platform command_start int_non_ascii es
      (after (process ADMIN_CHAT_ID_INT platform command_start int_non_ascii e) w).
Proof. reflexivity. Qed.

Lemma run_app es1 es2 w :
  run ADMIN_CHAT_ID_INT platform command_start int_non_ascii (es1 ++ es2) w
  = run ADMIN_CHAT_ID_INT platform command_start int_non_ascii es2
      (run ADMIN_CHAT_ID_INT platform command_start int_non_ascii es1 w).
Proof. unfold run. apply fold_left_app. Qed.

Lemma run_trace_extends es w :
  exists added,
    trace (run ADMIN_CHAT_ID_INT platform command_start int_non_ascii es w)
    = (trace w ++ added)%list.
Proof.
  revert w. induction es as [|e es IH]; intros w.
  - exists []. simpl. by rewrite app_nil_r.
  - rewrite run_cons. destruct (IH (after (process ADMIN_CHAT_ID_INT platform
                                             command_start int_non_ascii e) w))
      as [t2 Ht2].
    destruct (process_grows e w) as (t1 & Ht1 & _).
    exists (t1 ++ t2)%list. rewrite Ht2, Ht1, app_assoc. reflexivity.
Qed.

Lemma run_keys_delivered es w :
  keys_delivered ADMIN_CHAT_ID_INT w ->
  keys_delivered ADMIN_CHAT_ID_INT
    (run ADMIN_CHAT_ID_INT platform command_start int_non_ascii es w).
Proof.
  revert w. induction es as [|e es IH]; intros w Hinv; [exact Hinv|].
  rewrite run_cons. apply IH.
  eapply grows_keys_delivered; [apply process_grows | exact Hinv].
Qed.

Lemma run_keeps_entries es w k v :
  keys_delivered ADMIN_CHAT_ID_INT w ->
  NoDup (delivered_ids ADMIN_CHAT_ID_INT
           (trace (run ADMIN_CHAT_ID_INT platform command_start int_non_ascii es w))) ->
  (user_message_map w !! k = Some v ->
   user_message_map (run ADMIN_CHAT_ID_INT platform command_start int_non_ascii es w)
     !! k = Some v)
  /\ (reply_message_map w !! k = Some v ->
      reply_message_map (run ADMIN_CHAT_ID_INT platform command_start int_non_ascii es w)
        !! k = Some v).
Proof.
  revert w. induction es as [|e es IH]; intros w Hinv Hnd; [done|].
  rewrite run_cons in *.
  pose proof (process_grows e w) as Hg.
  assert (Hinv' := grows_keys_delivered _ _ _ Hg Hinv).
  destruct (IH _ Hinv' Hnd) as [IHu IHr].
  destruct Hg as (added & Ht & Hu & Hr).
  destruct (run_trace_extends es
              (after (process ADMIN_CHAT_ID_INT platform command_start
                        int_non_ascii e) w)) as [later Hlater].
  rewrite Hlater, Ht, !delivered_ids_app in Hnd.
  apply NoDup_app in Hnd as (Hnd & _ & _).
  split; intros Hv.
  - apply IHu. eapply table_step_keeps; [exact Hu | exact Hnd | | exact Hv].
    apply Hinv. left. eauto.
  - apply IHr. eapply table_step_keeps; [exact Hr | exact Hnd | | exact Hv].
    apply Hinv. right. eauto.
Qed.

(** *** The handlers are blind to the forwarded-message table *)

Lemma blind_bot_call c : blind (bot_call platform c).
Proof.
  intros w1 w2 [Hr Ht]. unfold bot_call, same_view. rewrite Ht.
  destruct (platform (trace w2) c); simpl; rewrite Hr; done.
Qed.

Lemma blind_item l i : blind (item l i).
Proof. unfold item. destruct (l !! i); [apply blind_ret | apply blind_raise]. Qed.

Lemma blind_int_of_text s : blind (int_of_text int_non_ascii s).
Proof.
  unfold int_of_text. destruct (py_int _ s); [apply blind_ret | apply blind_raise].
Qed.

#[local] Hint Resolve blind_bot_call blind_item blind_int_of_text : blind.

Lemma blind_cmd_start m : blind (cmd_start ADMIN_CHAT_ID_INT platform m).
Proof.
  unfold cmd_start, logger_error, message_answer. repeat blind_step.
Qed.

Lemma blind_handle_reply_button c :
  blind (handle_reply_button ADMIN_CHAT_ID_INT platform int_non_ascii c).
Proof.
  unfold handle_reply_button, logger_error, callback_answer. repeat blind_step.
Qed.

Lemma blind_handle_admin_reply m : blind (handle_admin_reply platform m).
Proof.
  unfold handle_admin_reply, logger_error, message_answer. repeat blind_step.
Qed.

Lemma blind_handle_message m : blind (handle_message ADMIN_CHAT_ID_INT platform m).
Proof.
  unfold handle_message, logger_error, message_answer. repeat blind_step.
Qed.

Lemma blind_send_daily_motivation n :
  blind (send_daily_motivation ADMIN_CHAT_ID_INT platform n).
Proof.
  unfold send_daily_motivation, logger_error, logger_info. repeat blind_step.
Qed.

Lemma blind_process e :
  blind (process ADMIN_CHAT_ID_INT platform command_start int_non_ascii e).
Proof.
  destruct e as [m|c|n]; simpl.
  - unfold dispatch_message.
    destruct (command_start m); [apply blind_cmd_start|].
    destruct (admin_reply_filter ADMIN_CHAT_ID_INT m);
      [apply blind_handle_admin_reply | apply blind_handle_message].
  - unfold dispatch_callback_query. apply blind_bind; [apply blind_attr|].
    intros payload. destruct (startswith "reply_" payload);
      [apply blind_handle_reply_button | apply blind_ret].
  - apply blind_send_daily_motivation.
Qed.

(** ** The properties of the handlers *)

(** C1 (as amended).  An operator reply whose replied-to message id is bound
    in the reply-prompt table to a user id other than 0 makes the handler
    call the platform first of all with the reply's content, addressed to
    that user id: [send_photo] with the last (largest) size when the message
    has a photo, else [send_video] when it has a video, else [send_document]
    when it has a document, else [send_message]; the text or caption goes
    along unchanged, the text first, and the placeholder stands in when both
    are missing or empty.  Every later call of the handler goes to the chat
    the reply came from.  When the id is absent from the table the handler
    has no effect at all. *)
Theorem admin_reply_relays_by_priority message w r :
  reply_to_message message = Some r ->
  (reply_message_map w !! r = None ->
   effects_of (handle_admin_reply platform message) w = [])
  /\ (forall user_id, reply_message_map w !! r = Some user_id -> user_id <> 0 ->
      exists c answer rest,
        effects_of (handle_admin_reply platform message) w = Called c answer :: rest
        /\ call_chat c = Some user_id
        /\ call_body c = text_or_caption message
        /\ (forall p ps, photo message = Some (p :: ps) ->
            c = send_photo user_id (file_id (List.last (p :: ps) p))
                  (text_or_caption message) None None)
        /\ (no_photo message -> forall v, video message = Some v ->
            c = send_video user_id (file_id v) (text_or_caption message) None None)
        /\ (no_photo message -> video message = None ->
            forall d, document message = Some d ->
            c = send_document user_id (file_id d) (text_or_caption message) None None)
        /\ (no_photo message -> video message = None -> document message = None ->
            c = send_message user_id (text_or_caption message) None None)
        /\ Forall (fun c' => call_chat c' = Some (chat_id message)) (calls rest))
  /\ (forall t, text message = Some t -> t <> EmptyString ->
      text_or_caption message = t)
  /\ (opt_str_truthy (text message) = false ->
      forall t, caption message = Some t -> t <> EmptyString ->
      text_or_caption message = t)
  /\ (opt_str_truthy (text message) = false ->
      opt_str_truthy (caption message) = false ->
      text_or_caption message = media_placeholder).
Proof.
  intros Hr. split; [|split; [|apply text_or_caption_cases]].
  - intros Hl. eapply effects_of_unchanged, handle_admin_reply_untracked; eauto.
  - intros user_id Hl Hnz. apply Z.eqb_neq in Hnz.
    unfold no_photo, effects_of, after.
    destruct w as [um rm t]; simpl in *.
    unfold_handler. rewrite Hr. simpl. rewrite Hl, Hnz.
    destruct (photo message) as [[|p ps]|] eqn:Hphoto;
      [ destruct (video message) as [v|] eqn:Hvideo;
        [| destruct (document message) as [d|] eqn:Hdoc ]
      |
      | destruct (video message) as [v|] eqn:Hvideo;
        [| destruct (document message) as [d|] eqn:Hdoc ] ].
    all: simpl; case_platform; effects_done.
    all: eexists _, _, _; split; [reflexivity|]; simpl.
    all: repeat split; try done; try (intros; simplify_eq; done);
      try (intros [?|?]; intros; simplify_eq; done).
    all: repeat constructor.
Qed.

(** C2.  The payload of the button under a forwarded message is the text
    [reply_] followed by the user id in decimal; the forward to the operator
    chat carries that button; the payload passes the filter of the button
    handler, its field of index 1 reads back as the same user id, and, when
    the platform delivers the prompt, pressing the button binds the prompt's
    message id to exactly that user id and leaves every other entry of the
    reply-prompt table as it was. *)
Theorem reply_button_round_trip (U : Z) (w : World) (prompt : Z) :
  platform (trace w) (send_message ADMIN_CHAT_ID_INT reply_prompt_text (Some HTML) None)
  = Some prompt ->
  let payload := "reply_" +:+ py_str U in
  let pressed :=
    after (dispatch_callback_query ADMIN_CHAT_ID_INT platform int_non_ascii
             {| data := Some payload |}) w in
  inline_keyboard (create_reply_button U)
    = [[ {| button_text := "Ответить"; callback_data := payload |} ]]
  /\ (forall message sender,
        from_user message = Some sender -> uid sender = U ->
        exists c answer rest,
          effects_of (handle_message ADMIN_CHAT_ID_INT platform message) w
          = Called c answer :: rest
          /\ call_chat c = Some ADMIN_CHAT_ID_INT
          /\ call_markup c = Some (create_reply_button U))
  /\ startswith "reply_" payload = true
  /\ (py_split "_" payload !! 1%nat) ≫= py_int int_non_ascii = Some U
  /\ reply_message_map pressed = <[prompt := U]> (reply_message_map w)
  /\ reply_message_map pressed !! prompt = Some U
  /\ (forall k, k <> prompt ->
        reply_message_map pressed !! k = reply_message_map w !! k).
Proof.
  intros Hprompt payload pressed.
  assert (Hpressed : reply_message_map pressed = <[prompt := U]> (reply_message_map w)).
  { subst pressed payload.
    rewrite (dispatch_reply_payload _ ("reply_" +:+ py_str U))
      by (reflexivity || apply startswith_app).
    pose proof (py_split_reply_payload U) as Hsplit.
    remember ("reply_" +:+ py_str U) as payload eqn:Hpayload.
    unfold after. destruct w as [um rm t]; simpl in *.
    unfold_handler. simpl. rewrite Hsplit. simpl.
    rewrite py_int_py_str. simpl. rewrite Hprompt. simpl.
    case_platform; reflexivity. }
  split; [reflexivity|]. split.
  { intros message sender Hs <-. unfold effects_of, after.
    destruct w as [um rm t]; simpl in *. unfold_handler. rewrite Hs. simpl.
    case_attachment message.
    all: simpl; case_platform; effects_done.
    all: eexists _, _, _; split; [reflexivity|]; split; reflexivity. }
  split; [apply startswith_app|]. split.
  { subst payload. rewrite py_split_reply_payload. simpl. apply py_int_py_str. }
  split; [exact Hpressed|]. rewrite Hpressed. split.
  - apply lookup_insert_eq.
  - intros k Hk. apply lookup_insert_ne. congruence.
Qed.

(** C4 (as amended).  In the operator chat, a message that is not the start
    command and replies to a message id absent from the reply-prompt table
    has no effect: no call, no log record, no change of state.  A message
    that is not a reply is not dropped: the router hands it to the start
    handler or to the handler of user messages, and at least one call of the
    platform follows. *)
Theorem operator_message_routing m w :
  chat_id m = ADMIN_CHAT_ID_INT ->
  (forall r,
     command_start m = false ->
     reply_to_message m = Some r ->
     reply_message_map w !! r = None ->
     dispatch_message ADMIN_CHAT_ID_INT platform command_start m w = (Ok tt, w)
     /\ effects_of (dispatch_message ADMIN_CHAT_ID_INT platform command_start m) w = [])
  /\ (reply_to_message m = None ->
      calls (effects_of (dispatch_message ADMIN_CHAT_ID_INT platform command_start m) w)
      <> []
      /\ (command_start m = false ->
          dispatch_message ADMIN_CHAT_ID_INT platform command_start m
          = handle_message ADMIN_CHAT_ID_INT platform m)).
Proof.
  intros Hchat. split.
  - intros r Hcmd Hr Hl.
    assert (H : dispatch_message ADMIN_CHAT_ID_INT platform command_start m w
                = (Ok tt, w)).
    { rewrite dispatch_admin_reply by eauto.
      eapply handle_admin_reply_untracked; eassumption. }
    split; [exact H | eapply effects_of_unchanged; exact H].
  - intros Hr. split; [apply non_reply_message_is_answered; exact Hr|].
    intros Hcmd. apply dispatch_plain_message; assumption.
Qed.

(** C5 (as amended).  The handler of user messages first forwards to the
    operator chat, with the reply button.  When the platform refuses the
    forward, the receipt acknowledgment is not attempted: the handler logs
    the error and attempts the retry-later notice to the user instead, the
    forwarded-message table stays as it was, and the handler ends normally
    unless that notice is refused too.  When the forward is delivered, its
    message id is bound to the sender and the receipt acknowledgment is the
    next call. *)
Theorem refused_forward_gives_retry_notice message sender w :
  from_user message = Some sender ->
  let h := handle_message ADMIN_CHAT_ID_INT platform message in
  let receipt := send_message (chat_id message) message_received_text None None in
  let notice := send_message (chat_id message) message_failed_text None None in
  exists fwd,
    call_chat fwd = Some ADMIN_CHAT_ID_INT
    /\ call_markup fwd = Some (create_reply_button (uid sender))
    /\ (platform (trace w) fwd = None ->
        exists answer,
          effects_of h w
          = [ Called fwd None; LogError message_error_log TransportError;
              Called notice answer ]
          /\ (receipt ∉ calls (effects_of h w))
          /\ user_message_map (after h w) = user_message_map w
          /\ outcome h w = match answer with
                           | Some _ => Ok tt
                           | None => Raise TransportError
                           end)
    /\ (forall k, platform (trace w) fwd = Some k ->
        exists answer rest,
          effects_of h w = Called fwd (Some k) :: Called receipt answer :: rest
          /\ user_message_map (after h w)
             = <[k := uid sender]> (user_message_map w)).
Proof.
  intros Hs h receipt notice. subst h receipt notice.
  unfold effects_of, after, outcome. destruct w as [um rm t]; simpl.
  unfold_handler. rewrite Hs. simpl.
  case_attachment message; simpl.
  all: match goal with |- context [platform ?tr ?c] => unify tr t; exists c end.
  all: split; [reflexivity|]; split; [reflexivity|]; split;
    [ intros Hfwd; rewrite Hfwd; simpl; case_platform; effects_done;
      eexists; repeat split; try reflexivity; distinct_calls
    | intros k Hfwd; rewrite Hfwd; simpl; case_platform; effects_done;
      eexists _, _; split; reflexivity ].
Qed.

(** C6.  The start handler calls the platform first of all with the welcome
    text for the chat of the message, and never a second time with it; at
    most one more call follows, and it is the notification to the operator
    chat; when the platform refuses a call after the welcome, the error is
    logged, the handler ends normally, and the welcome had been delivered. *)
Theorem start_sends_welcome_then_notification message w :
  let h := cmd_start ADMIN_CHAT_ID_INT platform message in
  let welcome := send_message (chat_id message) welcome_text None None in
  exists answer rest,
    effects_of h w = Called welcome answer :: rest
    /\ (welcome ∉ calls rest)
    /\ (length (calls rest) <= 1)%nat
    /\ (forall c, c ∈ calls rest ->
          exists sender, from_user message = Some sender
            /\ c = send_message ADMIN_CHAT_ID_INT (start_admin_message sender)
                     (Some HTML) (Some (create_reply_button (uid sender))))
    /\ (forall c, Called c None ∈ rest ->
          LogError start_error_log TransportError ∈ rest
          /\ outcome h w = Ok tt
          /\ is_Some answer).
Proof.
  intros h welcome. subst h welcome.
  unfold effects_of, after, outcome. destruct w as [um rm t]; simpl.
  unfold_handler. simpl.
  destruct (platform t (send_message (chat_id message) welcome_text None None))
    as [i|] eqn:Hw; simpl;
    [ destruct (from_user message) as [sender|]; simpl; case_platform | ];
    effects_done; eexists _, _;
    (split; [reflexivity|]); simpl;
    (split; [distinct_calls | split; [lia | split]]).
  all: intros c Hin; repeat (apply elem_of_cons in Hin as [Hin|Hin]);
    try (by apply elem_of_nil in Hin); try discriminate; subst; eauto.
  all: repeat split; eauto; repeat constructor.
Qed.

(** C7 (as amended).  A button press whose payload starts with [reply_] and
    whose field of index 1, the text between the first underscore and the
    next one (or the end), is refused by [int], leaves both tables as they
    were and has exactly two effects: the error is logged with the
    [ValueError], and the failure acknowledgment is sent as an alert.  No
    message is sent into a chat.  The handler ends normally when that
    acknowledgment is delivered, and with the transport error when it is
    refused. *)
Theorem malformed_field_is_acknowledged_as_failure c payload w :
  data c = Some payload ->
  startswith "reply_" payload = true ->
  (py_split "_" payload !! 1%nat) ≫= py_int int_non_ascii = None ->
  let h := dispatch_callback_query ADMIN_CHAT_ID_INT platform int_non_ascii c in
  exists answer,
    effects_of h w
    = [ LogError reply_button_error_log ValueError;
        Called (answer_callback_query reply_button_failed true) answer ]
    /\ reply_message_map (after h w) = reply_message_map w
    /\ user_message_map (after h w) = user_message_map w
    /\ outcome h w = match answer with
                     | Some _ => Ok tt
                     | None => Raise TransportError
                     end.
Proof.
  intros Hd Hp Hbad h. subst h.
  rewrite (dispatch_reply_payload _ payload) by assumption.
  destruct (startswith_reply_field payload Hp) as (rest & _ & _ & [field Hfield]).
  rewrite Hfield in Hbad. simpl in Hbad.
  unfold effects_of, after, outcome. destruct w as [um rm t]; simpl.
  unfold_handler. rewrite Hd. simpl. rewrite Hfield, Hbad. simpl.
  case_platform; effects_done; eexists; repeat split.
Qed.

(** C8.  Take any run of the process from its start, and assume that the
    ids of the messages the platform delivered into the operator chat during
    the run are pairwise distinct.  Then an entry that either table holds
    after a part of the run is still there, with the same value, at the end
    of the run: nothing is deleted and no value changes. *)
Theorem correlation_entries_are_permanent (earlier later : list Event) (k v : Z) :
  NoDup (delivered_ids ADMIN_CHAT_ID_INT
           (trace (run ADMIN_CHAT_ID_INT platform command_start int_non_ascii
                     (earlier ++ later) initial_world))) ->
  (user_message_map
     (run ADMIN_CHAT_ID_INT platform command_start int_non_ascii earlier initial_world)
     !! k = Some v ->
   user_message_map
     (run ADMIN_CHAT_ID_INT platform command_start int_non_ascii (earlier ++ later)
        initial_world) !! k = Some v)
  /\ (reply_message_map
        (run ADMIN_CHAT_ID_INT platform command_start int_non_ascii earlier
           initial_world) !! k = Some v ->
      reply_message_map
        (run ADMIN_CHAT_ID_INT platform command_start int_non_ascii (earlier ++ later)
           initial_world) !! k = Some v).
Proof.
  rewrite run_app. intros Hnd.
  apply run_keeps_entries; [|exact Hnd].
  apply run_keys_delivered, keys_delivered_initial.
Qed.

(** C9.  The forwarded-message table is only written.  Started in two
    worlds that differ in nothing but that table, each handler, the daily
    job and the router as a whole end the same way, have the same effects
    and leave the same reply-prompt table. *)
Theorem forwarded_table_is_write_only :
  (forall m, ignores_forwarded_table (cmd_start ADMIN_CHAT_ID_INT platform m))
  /\ (forall c, ignores_forwarded_table
                 (handle_reply_button ADMIN_CHAT_ID_INT platform int_non_ascii c))
  /\ (forall m, ignores_forwarded_table (handle_admin_reply platform m))
  /\ (forall m, ignores_forwarded_table (handle_message ADMIN_CHAT_ID_INT platform m))
  /\ (forall n, ignores_forwarded_table
                 (send_daily_motivation ADMIN_CHAT_ID_INT platform n))
  /\ (forall e, ignores_forwarded_table
                 (process ADMIN_CHAT_ID_INT platform command_start int_non_ascii e)).
Proof.
  repeat apply conj; intros x; apply blind_ignores.
  - apply blind_cmd_start.
  - apply blind_handle_reply_button.
  - apply blind_handle_admin_reply.
  - apply blind_handle_message.
  - apply blind_send_daily_motivation.
  - apply blind_process.
Qed.

(** C10.  An operator reply to a prompt that the reply-prompt table binds
    to the user id 0 is handled exactly as if the entry were not there: in
    the world as it is and in the world without the entry alike, the handler
    ends normally, changes nothing and has no effect, so nothing is sent to
    a user and nothing is confirmed to the operator. *)
Theorem prompt_bound_to_zero_is_untracked message w r :
  reply_to_message message = Some r ->
  reply_message_map w !! r = Some 0 ->
  let untracked :=
    {| user_message_map := user_message_map w;
       reply_message_map := delete r (reply_message_map w);
       trace := trace w |} in
  handle_admin_reply platform message w = (Ok tt, w)
  /\ handle_admin_reply platform message untracked = (Ok tt, untracked)
  /\ effects_of (handle_admin_reply platform message) w = []
  /\ effects_of (handle_admin_reply platform message) untracked = [].
Proof.
  intros Hr Hl untracked.
  assert (H1 := handle_admin_reply_zero message w r Hr Hl).
  assert (H2 : handle_admin_reply platform message untracked = (Ok tt, untracked)).
  { apply (handle_admin_reply_untracked message untracked r Hr).
    apply lookup_delete_eq. }
  repeat split; try assumption; eapply effects_of_unchanged; eassumption.
Qed.

(** ** Further properties of the handlers *)

(** X1.  The daily job never raises and never touches a table.  It makes
    one call: a message into the operator chat whose text is the fixed label
    followed by one of the phrases of the list, sent as HTML and without a
    button; a delivered post is followed by the info record, a refused one
    by the error record. *)
Theorem daily_motivation_posts_one_phrase choice w :
  let h := send_daily_motivation ADMIN_CHAT_ID_INT platform choice in
  exists phrase answer,
    phrase ∈ MOTIVATIONAL_PHRASES
    /\ effects_of h w
       = [ Called (send_message ADMIN_CHAT_ID_INT
                     ("<b>Мотивация на день:</b>" +:+ nl +:+ nl +:+ phrase)
                     (Some HTML) None) answer;
           match answer with
           | Some _ => LogInfo motivation_sent_log
           | None => LogError motivation_error_log TransportError
           end ]
    /\ outcome h w = Ok tt
    /\ user_message_map (after h w) = user_message_map w
    /\ reply_message_map (after h w) = reply_message_map w.
Proof.
  intros h. subst h.
  assert (Hin : nth (choice mod length MOTIVATIONAL_PHRASES) MOTIVATIONAL_PHRASES
                  EmptyString ∈ MOTIVATIONAL_PHRASES).
  { apply list_elem_of_In, nth_In, Nat.mod_upper_bound. discriminate. }
  unfold send_daily_motivation. cbv zeta.
  remember (nth (choice mod length MOTIVATIONAL_PHRASES) MOTIVATIONAL_PHRASES
              EmptyString) as phrase eqn:Hphrase.
  clear Hphrase. exists phrase.
  unfold effects_of, after, outcome. destruct w as [um rm t].
  unfold_handler. simpl.
  case_platform; effects_done;
    [ exists (Some answer) | exists None ]; (split; [exact Hin|]); repeat split.
Qed.

(** X2.  When a start message has a sender and the platform delivers both
    the welcome and the notification, the handler ends normally, its effects
    are these two calls in this order, the forwarded-message table binds the
    id of the notification to the sender's id, and the reply-prompt table is
    as it was. *)
Theorem start_binds_notification_to_sender message sender w i k :
  let welcome := send_message (chat_id message) welcome_text None None in
  let notification :=
    send_message ADMIN_CHAT_ID_INT (start_admin_message sender) (Some HTML)
      (Some (create_reply_button (uid sender))) in
  from_user message = Some sender ->
  platform (trace w) welcome = Some i ->
  platform (trace w ++ [Called welcome (Some i)]) notification = Some k ->
  cmd_start ADMIN_CHAT_ID_INT platform message w
  = (Ok tt,
     {| user_message_map := <[k := uid sender]> (user_message_map w);
        reply_message_map := reply_message_map w;
        trace := trace w ++ [Called welcome (Some i); Called notification (Some k)] |}).
Proof.
  intros welcome notification Hs Hw Hn. subst welcome notification.
  destruct w as [um rm t]; simpl in *.
  unfold_handler. simpl. rewrite Hw. simpl. rewrite Hs. simpl. rewrite Hn. simpl.
  rewrite <- app_assoc. reflexivity.
Qed.

(** X3.  A message without a sender is never forwarded.  The handler of
    user messages logs the [AttributeError] and attempts the retry-later
    notice; the start handler sends the welcome and, when it was delivered,
    logs the [AttributeError] and ends normally.  Neither changes a table. *)
Theorem message_without_sender_is_not_forwarded message w :
  from_user message = None ->
  let hm := handle_message ADMIN_CHAT_ID_INT platform message in
  let hs := cmd_start ADMIN_CHAT_ID_INT platform message in
  (exists answer,
     effects_of hm w
     = [ LogError message_error_log AttributeError;
         Called (send_message (chat_id message) message_failed_text None None) answer ]
     /\ user_message_map (after hm w) = user_message_map w
     /\ reply_message_map (after hm w) = reply_message_map w)
  /\ (exists answer,
        effects_of hs w
        = Called (send_message (chat_id message) welcome_text None None) answer
          :: match answer with
             | Some _ => [LogError start_error_log AttributeError]
             | None => []
             end
        /\ outcome hs w = match answer with
                          | Some _ => Ok tt
                          | None => Raise TransportError
                          end
        /\ user_message_map (after hs w) = user_message_map w
        /\ reply_message_map (after hs w) = reply_message_map w).
Proof.
  intros Hs hm hs. subst hm hs.
  unfold effects_of, after, outcome. destruct w as [um rm t]; simpl.
  unfold_handler. rewrite Hs. simpl.
  split; case_platform; effects_done;
    [ exists (Some answer) | exists None | exists (Some answer) | exists None ];
    repeat split.
Qed.

(** X4.  The forward of a user message chooses its primitive like the
    relay of an operator reply: [send_photo] with the last size when the
    message has a photo, else [send_video], else [send_document], else
    [send_message]; in each case the call goes into the operator chat with
    the composed operator message as HTML and with the sender's reply
    button.  Every later call of the handler goes to the chat the message
    came from. *)
Theorem forward_uses_attachment_priority message sender w :
  from_user message = Some sender ->
  let body := forward_admin_message message sender in
  let button := Some (create_reply_button (uid sender)) in
  exists c answer rest,
    effects_of (handle_message ADMIN_CHAT_ID_INT platform message) w
    = Called c answer :: rest
    /\ (forall p ps, photo message = Some (p :: ps) ->
        c = send_photo ADMIN_CHAT_ID_INT (file_id (List.last (p :: ps) p)) body
              (Some HTML) button)
    /\ (no_photo message -> forall v, video message = Some v ->
        c = send_video ADMIN_CHAT_ID_INT (file_id v) body (Some HTML) button)
    /\ (no_photo message -> video message = None ->
        forall d, document message = Some d ->
        c = send_document ADMIN_CHAT_ID_INT (file_id d) body (Some HTML) button)
    /\ (no_photo message -> video message = None -> document message = None ->
        c = send_message ADMIN_CHAT_ID_INT body (Some HTML) button)
    /\ Forall (fun c' => call_chat c' = Some (chat_id message)) (calls rest).
Proof.
  intros Hs body button. subst body button.
  unfold no_photo, effects_of, after.
  destruct w as [um rm t]; simpl in *.
  unfold_handler. rewrite Hs. simpl.
  destruct (photo message) as [[|p ps]|] eqn:Hphoto;
    [ destruct (video message) as [v|] eqn:Hvideo;
      [| destruct (document message) as [d|] eqn:Hdoc ]
    |
    | destruct (video message) as [v|] eqn:Hvideo;
      [| destruct (document message) as [d|] eqn:Hdoc ] ].
  all: simpl; case_platform; effects_done.
  all: eexists _, _, _; split; [reflexivity|]; simpl.
  all: repeat split; try done; try (intros; simplify_eq; done);
    try (intros [?|?]; intros; simplify_eq; done).
  all: repeat constructor.
Qed.

(** X5.  For a button press whose field of index 1 reads as the user id
    [U]: the forwarded-message table is never changed; when the platform
    refuses the prompt, nothing is bound, the error is logged and the failure
    alert is attempted; when it delivers the prompt as message [p], [p] is
    bound to [U] and the success acknowledgment is the next call, and if that
    acknowledgment is refused the binding stays while the error is logged and
    the failure alert is attempted. *)
Theorem reply_button_binds_when_prompt_is_delivered callback payload field U w :
  data callback = Some payload ->
  py_split "_" payload !! 1%nat = Some field ->
  py_int int_non_ascii field = Some U ->
  let h := handle_reply_button ADMIN_CHAT_ID_INT platform int_non_ascii callback in
  let prompt := send_message ADMIN_CHAT_ID_INT reply_prompt_text (Some HTML) None in
  let ack := answer_callback_query reply_button_ack false in
  let alert := answer_callback_query reply_button_failed true in
  user_message_map (after h w) = user_message_map w
  /\ (platform (trace w) prompt = None ->
      reply_message_map (after h w) = reply_message_map w
      /\ exists a,
           effects_of h w
           = [ Called prompt None; LogError reply_button_error_log TransportError;
               Called alert a ])
  /\ (forall p, platform (trace w) prompt = Some p ->
      reply_message_map (after h w) = <[p := U]> (reply_message_map w)
      /\ exists a rest,
           effects_of h w = Called prompt (Some p) :: Called ack a :: rest
           /\ (is_Some a -> rest = [] /\ outcome h w = Ok tt)
           /\ (a = None ->
               exists a', rest = [ LogError reply_button_error_log TransportError;
                                   Called alert a' ])).
Proof.
  intros Hd Hf Hint h prompt ack alert. subst h prompt ack alert.
  unfold effects_of, after, outcome. destruct w as [um rm t]; simpl.
  unfold_handler. rewrite Hd. simpl. rewrite Hf. simpl. rewrite Hint. simpl.
  split; [case_platform; reflexivity|]. split.
  - intros Hp. rewrite Hp. simpl. case_platform; effects_done;
      (split; [reflexivity | eexists; reflexivity]).
  - intros p Hp. rewrite Hp. simpl. case_platform; effects_done;
      (split; [reflexivity|]); eexists _, _; (split; [reflexivity|]); split;
      try (intros [? ?]; discriminate); try (intros ?; discriminate);
      intros; eauto.
Qed.

(** X6.  The handler of operator replies never writes: whatever the
    message and whatever the platform answers, both tables are afterwards
    what they were, so a prompt stays bound after it was replied to. *)
Theorem admin_reply_keeps_both_tables message w :
  let h := handle_admin_reply platform message in
  user_message_map (after h w) = user_message_map w
  /\ reply_message_map (after h w) = reply_message_map w.
Proof.
  intros h. subst h. unfold after. destruct w as [um rm t]; simpl.
  unfold_handler.
  destruct (reply_to_message message) as [r|]; simpl;
    [ destruct (rm !! r) as [u|]; [destruct (u =? 0)|]; simpl;
      try case_attachment message; simpl | ];
    case_platform; split; reflexivity.
Qed.

(** X7.  What the operator is told about a relay to a user other than 0.
    When the platform refuses the relay, the error is logged and the failure
    notice goes to the chat of the reply; no other call is made, so the user
    hears nothing.  When the relay is delivered, the confirmation to the chat
    of the reply is the next call; if that confirmation is refused, the error
    is logged and the failure notice is attempted although the user has the
    reply. *)
Theorem relay_outcome_is_reported_to_operator message w r user_id :
  reply_to_message message = Some r ->
  reply_message_map w !! r = Some user_id ->
  user_id <> 0 ->
  let h := handle_admin_reply platform message in
  let confirmation := send_message (chat_id message) reply_sent_text None None in
  let failure := send_message (chat_id message) reply_failed_text None None in
  exists c answer rest,
    effects_of h w = Called c answer :: rest
    /\ call_chat c = Some user_id
    /\ (answer = None ->
        exists a, rest = [ LogError admin_reply_error_log TransportError;
                           Called failure a ])
    /\ (is_Some answer ->
        exists a rest',
          rest = Called confirmation a :: rest'
          /\ (is_Some a -> rest' = [] /\ outcome h w = Ok tt)
          /\ (a = None ->
              exists a', rest' = [ LogError admin_reply_error_log TransportError;
                                   Called failure a' ])).
Proof.
  intros Hr Hl Hnz h confirmation failure. subst h confirmation failure.
  apply Z.eqb_neq in Hnz.
  unfold effects_of, after, outcome. destruct w as [um rm t]; simpl in *.
  unfold_handler. rewrite Hr. simpl. rewrite Hl, Hnz.
  case_attachment message.
  all: simpl; case_platform; effects_done.
  all: eexists _, _, _; (split; [reflexivity|]); (split; [reflexivity|]); split.
  all: try (intros [? ?]; discriminate); try (intros ?; discriminate).
  all: intros; try (eexists; reflexivity).
  all: eexists _, _; (split; [reflexivity|]); split;
    try (intros [? ?]; discriminate); try (intros ?; discriminate);
    intros; eauto.
Qed.

(** X8.  The handler of user messages never tells the user both that the
    message was received and that sending failed: the receipt and the
    retry-later notice are never both delivered.  It makes at most one call
    that carries a reply button. *)
Theorem receipt_and_failure_notice_exclude_each_other message w :
  let eff := effects_of (handle_message ADMIN_CHAT_ID_INT platform message) w in
  let receipt := send_message (chat_id message) message_received_text None None in
  let notice := send_message (chat_id message) message_failed_text None None in
  ~ (exists i j, Called receipt (Some i) ∈ eff /\ Called notice (Some j) ∈ eff)
  /\ (length (filter (fun c => bool_decide (is_Some (call_markup c))) (calls eff))
      <= 1)%nat.
Proof.
  intros eff receipt notice. subst eff receipt notice.
  unfold effects_of, after. destruct w as [um rm t]; simpl.
  unfold_handler.
  destruct (from_user message) as [sender|]; simpl;
    [ case_attachment message; simpl | ]; case_platform; effects_done.
  all: split; [| simpl; lia].
  all: intros (i & j & Hi & Hj);
    repeat (apply elem_of_cons in Hi as [Hi|Hi]);
    try (by apply elem_of_nil in Hi); try discriminate;
    repeat (apply elem_of_cons in Hj as [Hj|Hj]);
    try (by apply elem_of_nil in Hj); try discriminate;
    injection Hi; injection Hj; intros;
    eauto using received_text_is_not_failed_text, eq_sym.
Qed.

(** Settles one case of [only_a_refused_last_call_raises]. *)
Ltac raise_case :=
  let Hex := fresh "Hex" in
  intros Hex;
  first [ discriminate
        | injection Hex as <-; effects_done; left; split; [reflexivity|];
          eexists; reflexivity ].

(** X9.  An exception leaves the process of an event in two ways only.
    Either the very last effect is a call that the platform refused, and the
    exception is its transport error: every other exception was caught by a
    handler.  Or the event is a button press without a payload, on which the
    filter of the button handler raises [AttributeError] before any handler
    runs, with no effect. *)
Theorem only_a_refused_last_call_raises e w ex :
  outcome (process ADMIN_CHAT_ID_INT platform command_start int_non_ascii e) w
  = Raise ex ->
  (ex = TransportError
   /\ exists c,
        last (effects_of (process ADMIN_CHAT_ID_INT platform command_start
                            int_non_ascii e) w) = Some (Called c None))
  \/ (ex = AttributeError
      /\ effects_of (process ADMIN_CHAT_ID_INT platform command_start
                       int_non_ascii e) w = []
      /\ exists c, e = CallbackQueryUpdate c /\ data c = None).
Proof.
  unfold outcome, effects_of, after. destruct w as [um rm t].
  destruct e as [m|c|n]; simpl.
  - unfold dispatch_message.
    destruct (command_start m);
      [| destruct (admin_reply_filter ADMIN_CHAT_ID_INT m) ]; unfold_handler; simpl.
    + case_platform; destruct (from_user m); simpl; case_platform; raise_case.
    + destruct (reply_to_message m) as [r|]; simpl;
        [ destruct (rm !! r) as [u|]; [destruct (u =? 0)|]; simpl;
          try case_attachment m; simpl | ];
        case_platform; raise_case.
    + destruct (from_user m); simpl; [case_attachment m; simpl|];
        case_platform; raise_case.
  - unfold dispatch_callback_query, bind, attr, raise, ret.
    destruct (data c) as [payload|] eqn:Hd; simpl.
    + destruct (startswith "reply_" payload); simpl; [|discriminate].
      unfold_handler. rewrite Hd. simpl.
      destruct (py_split "_" payload !! 1%nat) as [field|]; simpl;
        [ destruct (py_int int_non_ascii field); simpl | ];
        case_platform; raise_case.
    + intros [= <-]. right. rewrite drop_all. eauto.
  - unfold_handler. simpl. case_platform; raise_case.
Qed.

(** Which events write which table. *)
Lemma process_table_writers e w :
  let w' := after (process ADMIN_CHAT_ID_INT platform command_start int_non_ascii e) w in
  match e with
  | MessageUpdate _ => reply_message_map w' = reply_message_map w
  | CallbackQueryUpdate _ => user_message_map w' = user_message_map w
  | DailyMotivation _ =>
      user_message_map w' = user_message_map w
      /\ reply_message_map w' = reply_message_map w
  end.
Proof.
  unfold after. destruct w as [um rm t].
  destruct e as [m|c|n]; simpl.
  - unfold dispatch_message.
    destruct (command_start m);
      [| destruct (admin_reply_filter ADMIN_CHAT_ID_INT m) ]; unfold_handler; simpl.
    + case_platform; destruct (from_user m); simpl; case_platform; reflexivity.
    + destruct (reply_to_message m) as [r|]; simpl;
        [ destruct (rm !! r) as [u|]; [destruct (u =? 0)|]; simpl;
          try case_attachment m; simpl | ];
        case_platform; reflexivity.
    + destruct (from_user m); simpl; [case_attachment m; simpl|];
        case_platform; reflexivity.
  - unfold dispatch_callback_query, bind, attr, raise, ret.
    destruct (data c) as [payload|] eqn:Hd; simpl; [|reflexivity].
    destruct (startswith "reply_" payload); simpl; [|reflexivity].
    unfold_handler. rewrite Hd. simpl.
    destruct (py_split "_" payload !! 1%nat) as [field|]; simpl;
      [ destruct (py_int int_non_ascii field); simpl | ];
      case_platform; reflexivity.
  - unfold_handler. simpl. case_platform; split; reflexivity.
Qed.

(** X10.  Each table has its own writers.  A message never changes the
    reply-prompt table, a button press never changes the forwarded-message
    table, and the daily job changes neither. *)
Theorem each_table_has_its_own_writers e w :
  let w' := after (process ADMIN_CHAT_ID_INT platform command_start int_non_ascii e) w in
  match e with
  | MessageUpdate _ => reply_message_map w' = reply_message_map w
  | CallbackQueryUpdate _ => user_message_map w' = user_message_map w
  | DailyMotivation _ =>
      user_message_map w' = user_message_map w
      /\ reply_message_map w' = reply_message_map w
  end.
Proof.
  unfold after. destruct w as [um rm t].
  destruct e as [m|c|n]; simpl.
  - unfold dispatch_message.
    destruct (command_start m);
      [| destruct (admin_reply_filter ADMIN_CHAT_ID_INT m) ]; unfold_handler; simpl.
    + case_platform; destruct (from_user m); simpl; case_platform; reflexivity.
    + destruct (reply_to_message m) as [r|]; simpl;
        [ destruct (rm !! r) as [u|]; [destruct (u =? 0)|]; simpl;
          try case_attachment m; simpl | ];
        case_platform; reflexivity.
    + destruct (from_user m); simpl; [case_attachment m; simpl|];
        case_platform; reflexivity.
  - unfold dispatch_callback_query, bind, attr, raise, ret.
    destruct (data c) as [payload|] eqn:Hd; simpl; [|reflexivity].
    destruct (startswith "reply_" payload); simpl; [|reflexivity].
    unfold_handler. rewrite Hd. simpl.
    destruct (py_split "_" payload !! 1%nat) as [field|]; simpl;
      [ destruct (py_int int_non_ascii field); simpl | ];
      case_platform; reflexivity.
  - unfold_handler. simpl. case_platform; split; reflexivity.
Qed.

(** X11.  One event adds at most one entry to the two tables taken
    together. *)
Theorem an_event_adds_at_most_one_entry e w :
  let w' := after (process ADMIN_CHAT_ID_INT platform command_start int_non_ascii e) w in
  (size (user_message_map w') + size (reply_message_map w')
   <= size (user_message_map w) + size (reply_message_map w) + 1)%nat.
Proof.
  intros w'.
  assert (Hins : forall (tb : gmap Z Z) p u, (size (<[p := u]> tb) <= size tb + 1)%nat).
  { intros tb p u. rewrite map_size_insert. destruct (tb !! p); simpl; lia. }
  pose proof (process_table_writers e w) as Hw.
  destruct (process_grows e w) as (added & _ & Hu & Hr). fold w' in Hu, Hr.
  cbv zeta in Hw. fold w' in Hw.
  destruct e as [m|c|n].
  - rewrite Hw. destruct Hu as [-> | (p & u & -> & _)]; [lia|].
    specialize (Hins (user_message_map w) p u). lia.
  - rewrite Hw. destruct Hr as [-> | (p & u & -> & _)]; [lia|].
    specialize (Hins (reply_message_map w) p u). lia.
  - destruct Hw as [-> ->]. lia.
Qed.

(** X12.  After any run from the start of the process, every key of the
    forwarded-message table and of the reply-prompt table is the id of a
    message that the platform delivered into the operator chat during the
    run. *)
Theorem table_keys_are_operator_chat_messages events k :
  let w := run ADMIN_CHAT_ID_INT platform command_start int_non_ascii events
             initial_world in
  is_Some (user_message_map w !! k) \/ is_Some (reply_message_map w !! k) ->
  k ∈ delivered_ids ADMIN_CHAT_ID_INT (trace w).
Proof.
  intros w. subst w. revert k.
  apply run_keys_delivered, keys_delivered_initial.
Qed.

(** The press of a well-formed button binds the delivered prompt. *)
Lemma handle_reply_button_binds callback payload field U w p :
  data callback = Some payload ->
  py_split "_" payload !! 1%nat = Some field ->
  py_int int_non_ascii field = Some U ->
  platform (trace w) (send_message ADMIN_CHAT_ID_INT reply_prompt_text (Some HTML) None)
  = Some p ->
  reply_message_map
    (after (handle_reply_button ADMIN_CHAT_ID_INT platform int_non_ascii callback) w)
  = <[p := U]> (reply_message_map w).
Proof.
  intros Hd Hf Hint Hp. unfold after. destruct w as [um rm t]; simpl in *.
  unfold_handler. rewrite Hd. simpl. rewrite Hf. simpl. rewrite Hint. simpl.
  rewrite Hp. simpl. case_platform; reflexivity.
Qed.

(** The first effect of a reply to a prompt bound to a user other than 0. *)
Lemma handle_admin_reply_first_call message w r user_id :
  reply_to_message message = Some r ->
  reply_message_map w !! r = Some user_id ->
  user_id <> 0 ->
  exists c answer rest,
    effects_of (handle_admin_reply platform message) w = Called c answer :: rest
    /\ call_chat c = Some user_id
    /\ call_body c = text_or_caption message.
Proof.
  intros Hr Hl Hnz. apply Z.eqb_neq in Hnz.
  unfold effects_of, after. destruct w as [um rm t]; simpl in *.
  unfold_handler. rewrite Hr. simpl. rewrite Hl, Hnz.
  case_attachment message.
  all: simpl; case_platform; effects_done.
  all: eexists _, _, _; split; [reflexivity|]; split; reflexivity.
Qed.

(** X13.  The button and the reply compose.  Take the button made for a
    user [U] other than 0, let the operator press it and let the platform
    deliver the prompt as message [p]; whatever the platform answers to the
    acknowledgment, a later message in the operator chat that replies to [p]
    and is not the start command makes the bot call the platform, first of
    all, with the reply's text or caption addressed to [U]. *)
Theorem pressed_button_routes_the_reply U button w p reply :
  U <> 0 ->
  inline_keyboard (create_reply_button U) = [[button]] ->
  platform (trace w) (send_message ADMIN_CHAT_ID_INT reply_prompt_text (Some HTML) None)
  = Some p ->
  chat_id reply = ADMIN_CHAT_ID_INT ->
  command_start reply = false ->
  reply_to_message reply = Some p ->
  let pressed :=
    after (process ADMIN_CHAT_ID_INT platform command_start int_non_ascii
             (CallbackQueryUpdate {| data := Some (callback_data button) |})) w in
  reply_message_map pressed !! p = Some U
  /\ exists c answer rest,
       effects_of (process ADMIN_CHAT_ID_INT platform command_start int_non_ascii
                     (MessageUpdate reply)) pressed
       = Called c answer :: rest
       /\ call_chat c = Some U
       /\ call_body c = text_or_caption reply.
Proof.
  intros HU Hbutton Hp Hchat Hcmd Hr pressed.
  injection Hbutton as <-. simpl callback_data in pressed.
  assert (Hbound : reply_message_map pressed !! p = Some U).
  { subst pressed. simpl process.
    rewrite (dispatch_reply_payload _ ("reply_" +:+ py_str U))
      by (reflexivity || apply startswith_app).
    rewrite (handle_reply_button_binds _ ("reply_" +:+ py_str U) (py_str U) U w p);
      [ apply lookup_insert_eq | reflexivity | | apply py_int_py_str | exact Hp ].
    rewrite py_split_reply_payload. reflexivity. }
  split; [exact Hbound|].
  simpl process. rewrite dispatch_admin_reply by eauto.
  exact (handle_admin_reply_first_call reply pressed p U Hr Hbound HU).
Qed.

(** What one event may add to the tables, and from where. *)
Lemma process_values e events w :
  values_accounted_for int_non_ascii events w ->
  values_accounted_for int_non_ascii (events ++ [e])
    (after (process ADMIN_CHAT_ID_INT platform command_start int_non_ascii e) w).
Proof.
  intros [Hu Hr].
  assert (Hu' : forall k v, user_message_map w !! k = Some v ->
                            sent_by_a_sender (events ++ [e]) v).
  { intros k v Hv. destruct (Hu k v Hv) as (m & s & Hin & Hs & Hv').
    exists m, s. rewrite elem_of_app. auto. }
  assert (Hr' : forall k v, reply_message_map w !! k = Some v ->
                            read_from_a_press int_non_ascii (events ++ [e]) v).
  { intros k v Hv. destruct (Hr k v Hv) as (c & pl & f & Hin & H).
    exists c, pl, f. rewrite elem_of_app. auto. }
  assert (Hsender : forall m sender k v,
             e = MessageUpdate m -> from_user m = Some sender ->
             forall k', <[k := uid sender]> (user_message_map w) !! k' = Some v ->
             sent_by_a_sender (events ++ [e]) v).
  { intros m sender k v -> Hs k' Hv.
    destruct (decide (k = k')) as [<-|Hne].
    - rewrite lookup_insert_eq in Hv. injection Hv as <-.
      exists m, sender. rewrite elem_of_app, list_elem_of_singleton. auto.
    - rewrite lookup_insert_ne in Hv by exact Hne. eauto. }
  assert (Hpress : forall c payload field U k v,
             e = CallbackQueryUpdate c -> data c = Some payload ->
             startswith "reply_" payload = true ->
             py_split "_" payload !! 1%nat = Some field ->
             py_int int_non_ascii field = Some U ->
             forall k', <[k := U]> (reply_message_map w) !! k' = Some v ->
             read_from_a_press int_non_ascii (events ++ [e]) v).
  { intros c payload field U k v -> Hd Hp Hf Hint k' Hv.
    destruct (decide (k = k')) as [<-|Hne].
    - rewrite lookup_insert_eq in Hv. injection Hv as <-.
      exists c, payload, field. rewrite elem_of_app, list_elem_of_singleton. auto.
    - rewrite lookup_insert_ne in Hv by exact Hne. eauto. }
  unfold values_accounted_for, after. destruct w as [um rm t]; simpl in *.
  destruct e as [m|c|n]; simpl.
  - unfold dispatch_message.
    destruct (command_start m);
      [| destruct (admin_reply_filter ADMIN_CHAT_ID_INT m) ]; unfold_handler; simpl.
    + case_platform; destruct (from_user m) eqn:Hs; simpl; case_platform;
        (split; [|exact Hr']); first [exact Hu' | intros k' v; eapply Hsender; eauto].
    + destruct (reply_to_message m) as [r|]; simpl;
        [ destruct (rm !! r) as [u|]; [destruct (u =? 0)|]; simpl;
          try case_attachment m; simpl | ];
        case_platform; split; assumption.
    + destruct (from_user m) eqn:Hs; simpl; [case_attachment m; simpl|];
        case_platform;
        (split; [|exact Hr']); first [exact Hu' | intros k' v; eapply Hsender; eauto].
  - unfold dispatch_callback_query, bind, attr, raise, ret.
    destruct (data c) as [payload|] eqn:Hd; simpl; [|split; assumption].
    destruct (startswith "reply_" payload) eqn:Hp; simpl; [|split; assumption].
    unfold_handler. rewrite Hd. simpl.
    destruct (py_split "_" payload !! 1%nat) as [field|] eqn:Hf; simpl;
      [ destruct (py_int int_non_ascii field) eqn:Hint; simpl | ];
      case_platform;
      (split; [exact Hu'|]); first [exact Hr' | intros k' v; eapply Hpress; eauto].
  - unfold_handler. simpl. case_platform; split; assumption.
Qed.

Lemma run_values later earlier w :
  values_accounted_for int_non_ascii earlier w ->
  values_accounted_for int_non_ascii (earlier ++ later)
    (run ADMIN_CHAT_ID_INT platform command_start int_non_ascii later w).
Proof.
  revert earlier w. induction later as [|e later IH]; intros earlier w Hinv.
  - rewrite app_nil_r. exact Hinv.
  - rewrite run_cons.
    replace (earlier ++ e :: later)%list with ((earlier ++ [e]) ++ later)%list
      by (rewrite <- app_assoc; reflexivity).
    apply IH, process_values, Hinv.
Qed.

(** X14.  After any run from the start of the process, every user id in
    the forwarded-message table is the id of the sender of a message of the
    run, and every user id in the reply-prompt table, that is every
    destination an operator reply can be relayed to, was read by [int] from
    the field of index 1 of the payload of a button press of the run. *)
Theorem table_values_are_accounted_for events :
  values_accounted_for int_non_ascii events
    (run ADMIN_CHAT_ID_INT platform command_start int_non_ascii events initial_world).
Proof.
  apply (run_values events [] initial_world).
  split; intros k v Hv; simpl in Hv; by rewrite lookup_empty in Hv.
Qed.
End HandlerFacts.

(** ** The scheduler *)

(** C3.  The trigger that [main] registers is anchored to Europe/Moscow and
    fires exactly when the wall clock there shows 08:40:00, so once per
    calendar day; it does not fire at 09:00:00, the time that the comments
    and the log record of [main] announce. *)
Theorem daily_trigger_fires_at_0840 :
  timezone daily_motivation_trigger = "Europe/Moscow"
  /\ (forall c, fires_at daily_motivation_trigger c = true
                <-> c = {| wc_hour := 8; wc_minute := 40; wc_second := 0 |})
  /\ fires_at daily_motivation_trigger
       {| wc_hour := 9; wc_minute := 0; wc_second := 0 |} = false.
Proof.
  split; [reflexivity|]. split; [|reflexivity].
  intros [h m s]. unfold fires_at. simpl.
  rewrite !andb_true_iff, !Nat.eqb_eq. split.
  - intros [[-> ->] ->]. reflexivity.
  - intros [= -> -> ->]. done.
Qed.

(** ** The properties on the sample data *)

(** C1, the claim as first stated fails: message 500 is in the reply-prompt
    table, bound to 0, and the operator's reply to it is not relayed. *)
Lemma prompt_bound_to_zero_is_not_relayed :
  reply_message_map (world_with_prompt 500 0) !! 500 = Some 0
  /\ effects_of (handle_admin_reply delivering_platform operator_reply)
       (world_with_prompt 500 0) = [].
Proof. split; vm_compute; reflexivity. Qed.

(** C1 on a reply with a photo in two sizes, a video and a caption, to a
    prompt bound to Alice: the larger size goes to Alice with the caption. *)
Lemma admin_reply_relays_by_priority_witness :
  reply_to_message operator_photo_reply = Some 500
  /\ exists answer rest,
       effects_of (handle_admin_reply delivering_platform operator_photo_reply)
         (world_with_prompt 500 42)
       = Called (send_photo 42 "large" "Price list" None None) answer :: rest.
Proof.
  split; [reflexivity|].
  destruct (admin_reply_relays_by_priority delivering_platform operator_photo_reply
              (world_with_prompt 500 42) 500 eq_refl) as (_ & Hsent & _).
  destruct (Hsent 42) as (c & answer & rest & Heff & _ & _ & Hphoto & _);
    [vm_compute; reflexivity | lia |].
  exists answer, rest. rewrite Heff. f_equal. f_equal.
  apply (Hphoto {| file_id := "small" |} [ {| file_id := "large" |} ]). reflexivity.
Defined.

(** C2 for Alice: pressing the button under her message binds the prompt,
    message 100, to 42. *)
Lemma reply_button_round_trip_witness :
  delivering_platform (trace initial_world)
    (send_message sample_admin_chat reply_prompt_text (Some HTML) None) = Some 100
  /\ reply_message_map
       (after (dispatch_callback_query sample_admin_chat delivering_platform
                 no_other_digits {| data := Some ("reply_" +:+ py_str 42) |})
          initial_world) !! 100 = Some 42.
Proof.
  split; [reflexivity|].
  apply (reply_button_round_trip sample_admin_chat delivering_platform no_other_digits
           42 initial_world 100).
  reflexivity.
Defined.

(** C4, the claim as first stated fails: the operator's remark, which is
    not a reply, is forwarded into the operator chat and acknowledged. *)
Lemma operator_remark_is_forwarded :
  chat_id operator_remark = sample_admin_chat
  /\ reply_to_message operator_remark = None
  /\ calls (effects_of (dispatch_message sample_admin_chat delivering_platform
                          plain_start_filter operator_remark) initial_world)
     = [ send_message sample_admin_chat
           (forward_admin_message operator_remark operator) (Some HTML)
           (Some (create_reply_button 7));
         send_message sample_admin_chat message_received_text None None ].
Proof. repeat split; vm_compute; reflexivity. Qed.

(** C4 on the operator's reply to message 500 at the start of the process,
    when the reply-prompt table is empty. *)
Lemma operator_message_routing_witness :
  chat_id operator_reply = sample_admin_chat
  /\ effects_of (dispatch_message sample_admin_chat delivering_platform
                   plain_start_filter operator_reply) initial_world = [].
Proof.
  split; [reflexivity|].
  destruct (operator_message_routing sample_admin_chat delivering_platform
              plain_start_filter operator_reply initial_world eq_refl)
    as [Hdropped _].
  apply (Hdropped 500); reflexivity.
Defined.

(** C5, the claim as first stated fails: when the forward of Alice's
    message is refused, the receipt acknowledgment is not among the calls. *)
Lemma refused_forward_skips_receipt :
  calls (effects_of (handle_message sample_admin_chat first_call_refused
                       hello_from_alice) initial_world)
  = [ send_message sample_admin_chat
        (forward_admin_message hello_from_alice alice) (Some HTML)
        (Some (create_reply_button 42));
      send_message 42 message_failed_text None None ]
  /\ ~ In (send_message 42 message_received_text None None)
       (calls (effects_of (handle_message sample_admin_chat first_call_refused
                             hello_from_alice) initial_world)).
Proof.
  split; [vm_compute; reflexivity|].
  vm_compute. intros [H|[H|[]]]; discriminate.
Qed.

(** C5 on Alice's message when the first call is refused: the receipt
    acknowledgment is not among the calls and the handler ends normally. *)
Lemma refused_forward_gives_retry_notice_witness :
  from_user hello_from_alice = Some alice
  /\ (send_message (chat_id hello_from_alice) message_received_text None None
      ∉ calls (effects_of (handle_message sample_admin_chat first_call_refused
                             hello_from_alice) initial_world))
  /\ user_message_map
       (after (handle_message sample_admin_chat first_call_refused hello_from_alice)
          initial_world) = ∅.
Proof.
  split; [reflexivity|].
  destruct (refused_forward_gives_retry_notice sample_admin_chat first_call_refused
              hello_from_alice alice initial_world eq_refl)
    as (fwd & _ & _ & Hrefused & _).
  destruct (Hrefused eq_refl) as (answer & _ & Hreceipt & Htable & _).
  split; [exact Hreceipt | exact Htable].
Defined.

(** C7, the claim as first stated fails: the text after [reply_] is
    [42_x], which [int] refuses, and yet the prompt is sent and bound to 42. *)
Lemma extra_field_payload_is_accepted :
  startswith "reply_" "reply_42_x" = true
  /\ py_int no_other_digits "42_x" = None
  /\ calls (effects_of (dispatch_callback_query sample_admin_chat delivering_platform
                          no_other_digits (press "reply_42_x")) initial_world)
     = [ send_message sample_admin_chat reply_prompt_text (Some HTML) None;
         answer_callback_query reply_button_ack false ]
  /\ reply_message_map
       (after (dispatch_callback_query sample_admin_chat delivering_platform
                 no_other_digits (press "reply_42_x")) initial_world) !! 100
     = Some 42.
Proof. repeat split; vm_compute; reflexivity. Qed.

(** C7 on the payload [reply_abc]. *)
Lemma malformed_field_is_acknowledged_as_failure_witness :
  data (press "reply_abc") = Some "reply_abc"
  /\ startswith "reply_" "reply_abc" = true
  /\ (py_split "_" "reply_abc" !! 1%nat) ≫= py_int no_other_digits = None
  /\ exists answer,
       effects_of (dispatch_callback_query sample_admin_chat delivering_platform
                     no_other_digits (press "reply_abc")) initial_world
       = [ LogError reply_button_error_log ValueError;
           Called (answer_callback_query reply_button_failed true) answer ].
Proof.
  repeat split; try reflexivity.
  destruct (malformed_field_is_acknowledged_as_failure sample_admin_chat
              delivering_platform no_other_digits (press "reply_abc") "reply_abc"
              initial_world eq_refl eq_refl eq_refl) as (answer & Heff & _).
  exists answer. exact Heff.
Defined.

(** C8 on the sample run: the entries made while Alice wrote and the
    operator pressed the button are there after the rest of the run. *)
Lemma correlation_entries_are_permanent_witness :
  user_message_map
    (run sample_admin_chat delivering_platform plain_start_filter no_other_digits
       (earlier_events ++ later_events) initial_world) !! 100 = Some 42
  /\ reply_message_map
       (run sample_admin_chat delivering_platform plain_start_filter no_other_digits
          (earlier_events ++ later_events) initial_world) !! 102 = Some 42.
Proof.
  split.
  - apply (correlation_entries_are_permanent sample_admin_chat delivering_platform
             plain_start_filter no_other_digits earlier_events later_events 100 42).
    + apply (bool_decide_unpack _). vm_compute. exact I.
    + vm_compute. reflexivity.
  - apply (correlation_entries_are_permanent sample_admin_chat delivering_platform
             plain_start_filter no_other_digits earlier_events later_events 102 42).
    + apply (bool_decide_unpack _). vm_compute. exact I.
    + vm_compute. reflexivity.
Defined.

(** C10 on the operator's reply to message 500 when it is bound to 0. *)
Lemma prompt_bound_to_zero_is_untracked_witness :
  reply_to_message operator_reply = Some 500
  /\ reply_message_map (world_with_prompt 500 0) !! 500 = Some 0
  /\ handle_admin_reply delivering_platform operator_reply (world_with_prompt 500 0)
     = (Ok tt, world_with_prompt 500 0).
Proof.
  split; [reflexivity|]. split; [vm_compute; reflexivity|].
  apply (prompt_bound_to_zero_is_untracked delivering_platform operator_reply
           (world_with_prompt 500 0) 500); [reflexivity | vm_compute; reflexivity].
Defined.

(** ** Start-up *)




(** ** The further properties on the sample data *)

(** X2 on Alice's start message. *)
Lemma start_binds_notification_to_sender_witness :
  user_message_map
    (after (cmd_start sample_admin_chat delivering_platform start_from_alice)
       initial_world) !! 101 = Some 42.
Proof.
  unfold after.
  rewrite (start_binds_notification_to_sender sample_admin_chat delivering_platform
             start_from_alice alice initial_world 100 101);
    [ vm_compute; reflexivity | reflexivity | reflexivity | reflexivity ].
Defined.

(** X3 on a message without a sender. *)
Lemma message_without_sender_is_not_forwarded_witness :
  exists answer,
    effects_of (handle_message sample_admin_chat delivering_platform
                  {| chat_id := 42; from_user := None; text := Some "Hello";
                     caption := None; photo := None; video := None;
                     document := None; reply_to_message := None |}) initial_world
    = [ LogError message_error_log AttributeError;
        Called (send_message 42 message_failed_text None None) answer ].
Proof.
  destruct (message_without_sender_is_not_forwarded sample_admin_chat
              delivering_platform
              {| chat_id := 42; from_user := None; text := Some "Hello";
                 caption := None; photo := None; video := None;
                 document := None; reply_to_message := None |} initial_world
              eq_refl) as [(answer & Heff & _) _].
  exists answer. exact Heff.
Defined.

(** X4 on a photo from Alice offered in two sizes. *)
Lemma forward_uses_attachment_priority_witness :
  exists answer rest,
    effects_of (handle_message sample_admin_chat delivering_platform
                  {| chat_id := 42; from_user := Some alice; text := None;
                     caption := Some "My screen";
                     photo := Some [ {| file_id := "small" |}; {| file_id := "large" |} ];
                     video := None; document := Some {| file_id := "doc" |};
                     reply_to_message := None |}) initial_world
    = Called (send_photo sample_admin_chat "large"
                (forward_admin_message
                   {| chat_id := 42; from_user := Some alice; text := None;
                      caption := Some "My screen";
                      photo := Some [ {| file_id := "small" |};
                                      {| file_id := "large" |} ];
                      video := None; document := Some {| file_id := "doc" |};
                      reply_to_message := None |} alice)
                (Some HTML) (Some (create_reply_button 42))) answer :: rest.
Proof.
  destruct (forward_uses_attachment_priority sample_admin_chat delivering_platform
              {| chat_id := 42; from_user := Some alice; text := None;
                 caption := Some "My screen";
                 photo := Some [ {| file_id := "small" |}; {| file_id := "large" |} ];
                 video := None; document := Some {| file_id := "doc" |};
                 reply_to_message := None |} alice initial_world eq_refl)
    as (c & answer & rest & Heff & Hphoto & _).
  exists answer, rest. rewrite Heff. f_equal. f_equal.
  apply (Hphoto {| file_id := "small" |} [ {| file_id := "large" |} ]). reflexivity.
Defined.

(** X5 on the press of Alice's button. *)
Lemma reply_button_binds_when_prompt_is_delivered_witness :
  reply_message_map
    (after (handle_reply_button sample_admin_chat delivering_platform no_other_digits
              (press "reply_42")) initial_world)
  = <[100 := 42]> ∅.
Proof.
  destruct (reply_button_binds_when_prompt_is_delivered sample_admin_chat
              delivering_platform no_other_digits (press "reply_42") "reply_42" "42"
              42 initial_world eq_refl eq_refl eq_refl) as (_ & _ & Hdelivered).
  apply (Hdelivered 100). reflexivity.
Defined.

(** X7 on the operator's reply to a prompt bound to Alice when the relay
    is refused. *)
Lemma relay_outcome_is_reported_to_operator_witness :
  exists c rest,
    effects_of (handle_admin_reply first_call_refused operator_reply)
      (world_with_prompt 500 42) = Called c None :: rest
    /\ call_chat c = Some 42.
Proof.
  destruct (relay_outcome_is_reported_to_operator first_call_refused operator_reply
              (world_with_prompt 500 42) 500 42)
    as (c & answer & rest & Heff & Hchat & _);
    [ reflexivity | vm_compute; reflexivity | lia | ].
  exists c, rest. split; [|exact Hchat].
  rewrite Heff. f_equal.
  assert (Hfirst : head (effects_of (handle_admin_reply first_call_refused operator_reply)
                           (world_with_prompt 500 42))
                   = Some (Called (send_message 42 "Hi Alice" None None) None))
    by (vm_compute; reflexivity).
  rewrite Heff in Hfirst. simpl in Hfirst. injection Hfirst as -> ->. reflexivity.
Defined.

(** X9 on a start message whose welcome is refused. *)
Lemma only_a_refused_last_call_raises_witness :
  exists c,
    last (effects_of (process sample_admin_chat first_call_refused plain_start_filter
                        no_other_digits (MessageUpdate start_from_alice))
            initial_world) = Some (Called c None).
Proof.
  destruct (only_a_refused_last_call_raises sample_admin_chat first_call_refused
              plain_start_filter no_other_digits (MessageUpdate start_from_alice)
              initial_world TransportError) as [[_ Hlast] | [Hattr _]].
  - vm_compute. reflexivity.
  - exact Hlast.
  - discriminate Hattr.
Defined.

(** X12 on the sample run: message 102, the prompt, was delivered into the
    operator chat. *)
Lemma table_keys_are_operator_chat_messages_witness :
  102 ∈ delivered_ids sample_admin_chat
          (trace (run sample_admin_chat delivering_platform plain_start_filter
                    no_other_digits (earlier_events ++ later_events) initial_world)).
Proof.
  apply (table_keys_are_operator_chat_messages sample_admin_chat delivering_platform
           plain_start_filter no_other_digits (earlier_events ++ later_events) 102).
  right. exists 42. vm_compute. reflexivity.
Defined.

(** X13 for Alice: the button is pressed at the start of the process and
    the operator answers the prompt, message 100. *)
Lemma pressed_button_routes_the_reply_witness :
  exists c answer rest,
    effects_of (process sample_admin_chat delivering_platform plain_start_filter
                  no_other_digits
                  (MessageUpdate (text_message sample_admin_chat operator "Hi Alice"
                                    (Some 100))))
      (after (process sample_admin_chat delivering_platform plain_start_filter
                no_other_digits (CallbackQueryUpdate (press ("reply_" +:+ py_str 42))))
         initial_world)
    = Called c answer :: rest
    /\ call_chat c = Some 42
    /\ call_body c = "Hi Alice".
Proof.
  apply (pressed_button_routes_the_reply sample_admin_chat delivering_platform
           plain_start_filter no_other_digits 42
           {| button_text := "Ответить"; callback_data := "reply_" +:+ py_str 42 |}
           initial_world 100
           (text_message sample_admin_chat operator "Hi Alice" (Some 100)));
    [ lia | reflexivity | reflexivity | reflexivity | reflexivity | reflexivity ].
Defined.


(** ** The camera script *)

(** *** [strip] and its companions *)

Lemma every_char_and (P Q : ascii -> Prop) s :
  every_char P s -> every_char Q s -> every_char (fun c => P c /\ Q c) s.
Proof.
  induction s as [|c r IH]; simpl; [tauto|].
  intros [Hp Hr] [Hq Hr']. repeat split; auto.
Qed.

Lemma drop_prefix_app p s r : drop_prefix p s = Some r -> s = p +:+ r.
Proof.
  revert s. induction p as [|a p IH]; intros s; simpl.
  - intros [= ->]. reflexivity.
  - destruct s as [|b s]; [discriminate|].
    destruct (Ascii.eqb a b) eqn:Hab; [|discriminate].
    apply Ascii.eqb_eq in Hab as ->. intros H. rewrite (IH s H). reflexivity.
Qed.

Lemma drop_space_app s r :
  drop_space s = Some r ->
  exists p, p ∈ whitespace_encodings /\ s = p +:+ r.
Proof.
  unfold drop_space. generalize whitespace_encodings as encodings.
  induction encodings as [|p encodings IH]; simpl; [discriminate|].
  destruct (drop_prefix p s) as [r'|] eqn:Hp.
  - intros [= ->]. exists p. split; [left | apply drop_prefix_app, Hp].
  - intros H. destruct (IH H) as (q & Hq & Hs). exists q. split; [right|]; assumption.
Qed.

Lemma whitespace_encodings_space_bytes :
  Forall (every_char (fun c => space_byte c = true)) whitespace_encodings.
Proof. repeat constructor. Qed.

Lemma drop_space_plain c r : space_byte c = false -> drop_space (String c r) = None.
Proof.
  destruct c as [[] [] [] [] [] [] [] []]; intros H; vm_compute in H;
    first [discriminate H | reflexivity].
Qed.

Lemma py_lstrip_plain c r : space_byte c = false -> py_lstrip (String c r) = String c r.
Proof.
  intros H. unfold py_lstrip. simpl String.length. simpl lstrip_steps.
  rewrite (drop_space_plain c r H). reflexivity.
Qed.

Lemma lstrip_steps_suffix (P : ascii -> Prop) n s :
  every_char P s -> every_char P (lstrip_steps n s).
Proof.
  revert s. induction n as [|n IH]; intros s Hs; simpl; [exact Hs|].
  destruct (drop_space s) as [r|] eqn:Hd; [|exact Hs].
  apply IH. destruct (drop_space_app s r Hd) as (p & _ & ->).
  clear Hd. induction p as [|a p IHp]; simpl in Hs; [exact Hs|].
  apply IHp. tauto.
Qed.

Lemma lstrip_steps_empty_space_bytes n s :
  lstrip_steps n s = EmptyString -> every_char (fun c => space_byte c = true) s.
Proof.
  revert s. induction n as [|n IH]; intros s; simpl.
  - intros ->. exact I.
  - destruct (drop_space s) as [r|] eqn:Hd.
    + intros Hr. destruct (drop_space_app s r Hd) as (p & Hp & ->).
      apply every_char_app; [|apply IH, Hr].
      pose proof whitespace_encodings_space_bytes as Hall.
      rewrite Forall_forall in Hall. apply Hall, Hp.
    + intros ->. exact I.
Qed.

Lemma only_space_space_bytes s :
  only_space s = true -> every_char (fun c => space_byte c = true) s.
Proof.
  unfold only_space, py_lstrip. intros H.
  apply (lstrip_steps_empty_space_bytes (String.length s)).
  destruct (lstrip_steps (String.length s) s); [reflexivity | discriminate].
Qed.

Lemma every_char_app_inv (P : ascii -> Prop) s1 s2 :
  every_char P (s1 +:+ s2) -> every_char P s1 /\ every_char P s2.
Proof.
  induction s1 as [|c r IH]; simpl; [tauto|].
  intros [Hc Hr]. destruct (IH Hr). tauto.
Qed.

(** A text that holds a byte foreign to white space is not white space. *)
Lemma only_space_plain s c w :
  space_byte c = false -> only_space (s +:+ String c w) = false.
Proof.
  intros Hc. destruct (only_space (s +:+ String c w)) eqn:H; [|reflexivity].
  apply only_space_space_bytes, every_char_app_inv in H as [_ [H _]].
  congruence.
Qed.

(** [rstrip] stops at a byte foreign to white space. *)
Lemma py_rstrip_plain s c w :
  space_byte c = false ->
  py_rstrip (s +:+ String c w) = s +:+ String c (py_rstrip w).
Proof.
  intros Hc. induction s as [|a s IH].
  - pose proof (only_space_plain EmptyString c w Hc) as Hplain.
    change (EmptyString +:+ String c w) with (String c w) in *.
    cbn [py_rstrip]. rewrite Hplain. reflexivity.
  - pose proof (only_space_plain (String a s) c w Hc) as Hplain.
    change (String a s +:+ String c w) with (String a (s +:+ String c w)) in *.
    cbn [py_rstrip]. rewrite Hplain, IH. reflexivity.
Qed.

Lemma py_rstrip_prefix (P : ascii -> Prop) s :
  every_char P s -> every_char P (py_rstrip s).
Proof.
  induction s as [|c r IH]; [exact id|].
  intros [Hc Hr]. cbn [py_rstrip]. destruct (only_space (String c r)); [exact I|].
  split; [exact Hc | exact (IH Hr)].
Qed.

(** [strip] gives a part of the text. *)
Lemma py_strip_part (P : ascii -> Prop) s :
  every_char P s -> every_char P (py_strip s).
Proof.
  intros H. unfold py_strip, py_lstrip. apply py_rstrip_prefix, lstrip_steps_suffix, H.
Qed.

Lemma append_assoc (s1 s2 s3 : string) : (s1 +:+ s2) +:+ s3 = s1 +:+ (s2 +:+ s3).
Proof.
  induction s1 as [|c s1 IH]; [reflexivity|].
  change (String c ((s1 +:+ s2) +:+ s3) = String c (s1 +:+ (s2 +:+ s3))).
  f_equal. exact IH.
Qed.

Lemma py_rstrip_nl : py_rstrip nl = EmptyString.
Proof. reflexivity. Qed.

(** A text without trailing characters after its last byte [c]. *)
Lemma string_last_char s :
  s <> EmptyString -> exists s' c, s = s' +:+ String c EmptyString.
Proof.
  induction s as [|a s IH]; [congruence|]. intros _.
  destruct s as [|b s].
  - exists EmptyString, a. reflexivity.
  - destruct IH as (s' & c & Hs); [discriminate|].
    exists (String a s'), c. rewrite Hs. reflexivity.
Qed.

Lemma name_char_not_space c : is_name_char c = true -> space_byte c = false.
Proof.
  destruct c as [[] [] [] [] [] [] [] []]; intros H; vm_compute in H;
    first [discriminate H | reflexivity].
Qed.

Lemma name_char_not_equals c : is_name_char c = true -> Ascii.eqb c "=" = false.
Proof.
  destruct c as [[] [] [] [] [] [] [] []]; intros H; vm_compute in H;
    first [discriminate H | reflexivity].
Qed.

(** [strip] leaves a name as it is. *)
Lemma py_strip_name s : is_name s -> py_strip s = s.
Proof.
  intros [Hne Hchars]. unfold py_strip.
  destruct s as [|a r]; [congruence|].
  destruct Hchars as [Ha Hr].
  rewrite (py_lstrip_plain a r (name_char_not_space a Ha)).
  destruct (string_last_char (String a r)) as (s' & c & Hs); [discriminate|].
  rewrite Hs.
  assert (Hc : is_name_char c = true).
  { assert (Hall : every_char (fun c => is_name_char c = true) (String a r))
      by (split; assumption).
    rewrite Hs in Hall. apply every_char_app_inv in Hall as [_ [Hc _]]. exact Hc. }
  rewrite (py_rstrip_plain s' c EmptyString (name_char_not_space c Hc)).
  reflexivity.
Qed.

Lemma split_first_found sep a b :
  every_char (fun c => Ascii.eqb c sep = false) a ->
  split_first sep (a +:+ String sep b) = Some (a, b).
Proof.
  induction a as [|c a IH]; simpl.
  - intros _. rewrite Ascii.eqb_refl. reflexivity.
  - intros [-> Ha]. rewrite (IH Ha). reflexivity.
Qed.

Lemma split_first_before sep s a b :
  split_first sep s = Some (a, b) ->
  every_char (fun c => Ascii.eqb c sep = false) a.
Proof.
  revert a. induction s as [|c s IH]; intros a; simpl; [discriminate|].
  destruct (Ascii.eqb c sep) eqn:Hc.
  - intros [= <- _]. exact I.
  - destruct (split_first sep s) as [[a' b']|]; [|discriminate].
    intros [= <- <-]. split; [exact Hc | apply IH; reflexivity].
Qed.


Lemma ends_with_char_last c s : ends_with_char c (s +:+ String c EmptyString) = true.
Proof.
  induction s as [|a s IH]; simpl; [apply Ascii.eqb_refl|].
  destruct (s +:+ String c EmptyString) eqn:Hs; [|exact IH].
  destruct s; discriminate.
Qed.

Lemma drop_last_last c s : drop_last (s +:+ String c EmptyString) = s.
Proof.
  induction s as [|a s IH]; simpl; [reflexivity|].
  destruct (s +:+ String c EmptyString) eqn:Hs; [destruct s; discriminate|].
  rewrite IH. reflexivity.
Qed.

(** *** [load_env_file] *)

Lemma env_line_union env line : env_line env line = env_line ∅ line ∪ env.
Proof.
  unfold env_line.
  destruct (negb (str_truthy (py_strip line)) || startswith "#" (py_strip line));
    [by rewrite (left_id_L ∅ (∪))|].
  destruct (split_first "=" (py_strip line)) as [[key value]|];
    [|by rewrite (left_id_L ∅ (∪))].
  rewrite <- insert_union_l, (left_id_L ∅ (∪)). reflexivity.
Qed.

Lemma fold_env_line_union lines env :
  fold_left env_line lines env = fold_left env_line lines ∅ ∪ env.
Proof.
  revert env. induction lines as [|line lines IH]; intros env; simpl.
  - by rewrite (left_id_L ∅ (∪)).
  - rewrite (IH (env_line env line)), (IH (env_line ∅ line)).
    rewrite (env_line_union env line), (assoc_L (∪)). reflexivity.
Qed.

Lemma startswith_char a s :
  startswith (String a EmptyString) s = true <-> exists r, s = String a r.
Proof.
  unfold startswith. destruct s as [|c r]; cbn [String.prefix].
  - split; [discriminate | intros [? ?]; discriminate].
  - destruct (ascii_dec a c) as [<-|Hne].
    + split; [eauto | intros _; destruct r; reflexivity].
    + split; [discriminate | intros [? [= ? ?]]; congruence].
Qed.

Lemma startswith_other_char a c r :
  a <> c -> startswith (String a EmptyString) (String c r) = false.
Proof.
  intros Hne. destruct (startswith (String a EmptyString) (String c r)) eqn:H;
    [|reflexivity].
  apply startswith_char in H as [r' [= ? ?]]. congruence.
Qed.

Lemma env_lines_snoc before line :
  env_lines (before ++ [line]) = env_line (env_lines before) line.
Proof. unfold env_lines. rewrite fold_left_app. reflexivity. Qed.

Lemma env_line_keys (P : string -> Prop) env line :
  (forall key value,
     split_first "=" (py_strip line) = Some (key, value) -> P (py_strip key)) ->
  (forall k, is_Some (env !! k) -> P k) ->
  forall k, is_Some (env_line env line !! k) -> P k.
Proof.
  intros Hline Henv k. unfold env_line.
  destruct (negb (str_truthy (py_strip line)) || startswith "#" (py_strip line));
    [apply Henv|].
  destruct (split_first "=" (py_strip line)) as [[key value]|] eqn:Hs; [|apply Henv].
  destruct (decide (py_strip key = k)) as [<-|Hne].
  - intros _. eapply Hline. reflexivity.
  - rewrite lookup_insert_ne by exact Hne. apply Henv.
Qed.


(** X17.  What a file defines is what its lines define in order, a later
    line winning over an earlier one on the same key: the dictionary of a
    file is the dictionary of its second part, completed by that of its first
    part.  A read that fails after some lines returns what those lines
    define, and prints the warning; a missing file gives the empty
    dictionary. *)
Theorem env_later_lines_win first_part second_part :
  fst (load_env_file (ReadToEnd (first_part ++ second_part)))
  = fst (load_env_file (ReadToEnd second_part))
    ∪ fst (load_env_file (ReadToEnd first_part))
  /\ load_env_file (ReadFailed first_part)
     = (fst (load_env_file (ReadToEnd first_part)), true)
  /\ load_env_file NoFile = (∅, false).
Proof.
  repeat split. simpl. unfold env_lines. rewrite fold_left_app.
  apply fold_env_line_union.
Qed.

(** X18.  No key of the dictionary holds an equals sign, whatever the
    file. *)
Theorem env_keys_have_no_equals_sign file k :
  is_Some (fst (load_env_file file) !! k) ->
  every_char (fun c => Ascii.eqb c "=" = false) k.
Proof.
  assert (Hlines : forall lines env,
             (forall k, is_Some (env !! k) ->
                        every_char (fun c => Ascii.eqb c "=" = false) k) ->
             forall k, is_Some (fold_left env_line lines env !! k) ->
                       every_char (fun c => Ascii.eqb c "=" = false) k).
  { induction lines as [|line lines IH]; intros env Henv; simpl; [exact Henv|].
    apply IH. apply env_line_keys; [|exact Henv].
    intros key value Hs. apply py_strip_part.
    exact (split_first_before "=" _ key value Hs). }
  assert (Hempty : forall k, is_Some ((∅ : gmap string string) !! k) ->
                             every_char (fun c => Ascii.eqb c "=" = false) k).
  { intros k' [v Hv]. by rewrite lookup_empty in Hv. }
  destruct file as [|lines|lines]; simpl.
  - apply Hempty.
  - apply (Hlines lines ∅ Hempty).
  - apply (Hlines lines ∅ Hempty).
Qed.

(** X19.  A line made of a name, an equals sign and a value between two
    double quotes, or between two single quotes, gives the name that value,
    byte for byte, whatever the value holds (spaces, equals signs, quotes,
    a number sign) and whatever the lines before defined; the line may end
    with a line feed or be the unterminated last line. *)
Theorem env_quoted_value_is_kept before key value quote ending :
  is_name key ->
  quote = "034"%char \/ quote = "'"%char ->
  ending = EmptyString \/ ending = nl ->
  env_lines (before ++ [key +:+ String "=" (String quote (value +:+ String quote ending))])
    !! key = Some value.
Proof.
  intros Hname Hquote Hending.
  assert (Hq : space_byte quote = false) by (destruct Hquote as [-> | ->]; reflexivity).
  assert (Hend : py_rstrip ending = EmptyString)
    by (destruct Hending as [-> | ->]; reflexivity).
  pose proof Hname as [Hne Hall].
  destruct key as [|a key']; [congruence|]. pose proof Hall as [Ha Hkey'].
  set (key := String a key') in *.
  set (rest := String quote (value +:+ String quote EmptyString)).
  assert (Hstrip : py_strip (key +:+ String "=" (String quote (value +:+ String quote ending)))
                   = key +:+ String "=" rest).
  { unfold py_strip. subst key.
    change (String a key' +:+ String "=" (String quote (value +:+ String quote ending)))
      with (String a (key' +:+ String "=" (String quote (value +:+ String quote ending)))).
    rewrite py_lstrip_plain by (apply name_char_not_space, Ha).
    assert (Hshape : forall tail,
               String a (key' +:+ String "=" (String quote (value +:+ String quote tail)))
               = (String a key' +:+ String "=" (String quote value)) +:+ String quote tail).
    { intros tail. rewrite append_assoc. reflexivity. }
    rewrite (Hshape ending), (py_rstrip_plain _ quote ending Hq), Hend.
    rewrite <- (Hshape EmptyString). reflexivity. }
  rewrite env_lines_snoc. unfold env_line. rewrite Hstrip.
  assert (Hfirst : str_truthy (key +:+ String "=" rest) = true) by reflexivity.
  assert (Hcomment : startswith "#" (key +:+ String "=" rest) = false).
  { subst key. apply startswith_other_char. intros <-. discriminate Ha. }
  rewrite Hfirst, Hcomment. simpl negb. cbn [orb].
  rewrite (split_first_found "=" key rest).
  2:{ eapply every_char_weaken; [|exact Hall]. apply name_char_not_equals. }
  rewrite (py_strip_name key Hname).
  assert (Hrest : py_strip rest = rest).
  { unfold py_strip, rest. rewrite py_lstrip_plain by exact Hq.
    change (String quote (value +:+ String quote EmptyString))
      with (String quote value +:+ String quote EmptyString).
    rewrite (py_rstrip_plain _ quote EmptyString Hq). reflexivity. }
  rewrite Hrest, lookup_insert_eq. f_equal.
  assert (Hends : ends_with_char quote rest = true).
  { unfold rest.
    change (String quote (value +:+ String quote EmptyString))
      with (String quote value +:+ String quote EmptyString).
    apply ends_with_char_last. }
  assert (Hslice : slice_1_m1 rest = value) by apply drop_last_last.
  unfold unquote. destruct Hquote as [-> | ->].
  - change (startswith dquote rest) with (startswith dquote (dquote +:+ (value +:+ dquote))).
    rewrite startswith_app, Hends. exact Hslice.
  - assert (Hd : startswith dquote rest = false).
    { apply startswith_other_char. discriminate. }
    rewrite Hd. cbn [andb].
    change (startswith "'" rest) with (startswith "'" ("'" +:+ (value +:+ "'"))).
    rewrite startswith_app, Hends. exact Hslice.
Qed.


(** *** The connection parameters *)

Lemma opt_or_truthy a b s :
  opt_or a b = Some s -> opt_str_truthy (opt_or a b) = true -> s <> EmptyString.
Proof. intros -> H ->. discriminate H. Qed.

Lemma py_or_not_empty a d : d <> EmptyString -> py_or a d <> EmptyString.
Proof.
  intros Hd. unfold py_or. destruct a as [[|c s]|]; simpl; try exact Hd. discriminate.
Qed.

(** X21.  [main] never connects with an empty host, user or password,
    whatever the configuration file, the environment and the typed lines
    hold.  When the file or the environment gives a non-empty password,
    nothing that is typed matters. *)
Theorem main_connects_with_complete_parameters env_vars getenv typed :
  (forall host user password,
     main_start env_vars getenv typed = Connect host user password ->
     host <> EmptyString /\ user <> EmptyString /\ password <> EmptyString)
  /\ (opt_str_truthy (opt_or (env_vars !! "TAPO_PASSWORD") (getenv "TAPO_PASSWORD"))
      = true ->
      forall typed', main_start env_vars getenv typed'
                     = main_start env_vars getenv typed).
Proof.
  split.
  - intros host user password. unfold main_start.
    set (h := py_or (opt_or (env_vars !! "TAPO_HOST") (getenv "TAPO_HOST")) "192.168.0.113").
    set (u := py_or (opt_or (env_vars !! "TAPO_USER") (getenv "TAPO_USER")) "admin").
    assert (Hh : h <> EmptyString) by (apply py_or_not_empty; discriminate).
    assert (Hu : u <> EmptyString) by (apply py_or_not_empty; discriminate).
    destruct (opt_or (env_vars !! "TAPO_PASSWORD") (getenv "TAPO_PASSWORD"))
      as [[|c p]|] eqn:Hp; simpl.
    + destruct typed as [|l1 [|l2 [|l3 rest]]]; try discriminate.
      destruct (py_strip l3) as [|c3 p3] eqn:H3; simpl; [discriminate|].
      intros [= <- <- <-].
      destruct (py_strip l1), (py_strip l2); simpl; repeat split;
        try assumption; discriminate.
    + intros [= <- <- <-]. repeat split; try assumption. discriminate.
    + destruct typed as [|l1 [|l2 [|l3 rest]]]; try discriminate.
      destruct (py_strip l3) as [|c3 p3] eqn:H3; simpl; [discriminate|].
      intros [= <- <- <-].
      destruct (py_strip l1), (py_strip l2); simpl; repeat split;
        try assumption; discriminate.
  - intros Hp typed'. unfold main_start. rewrite Hp. reflexivity.
Qed.

(** *** [move_by_angle] *)


(** ** The camera script on the sample data *)

Example py_strip_unicode :
  py_strip ("  a b " +:+ utf8 [194; 160]%nat +:+ nl +:+ utf8 [227; 128; 128]%nat) = "a b".
Proof. reflexivity. Qed.

Example py_strip_keeps_inner_space : py_strip (nl +:+ "a  b") = "a  b".
Proof. reflexivity. Qed.

Example unquote_lone_quote : unquote dquote = EmptyString.
Proof. reflexivity. Qed.

Example unquote_unmatched : unquote "'abc" = "'abc".
Proof. reflexivity. Qed.

Example sample_env_file :
  fst (load_env_file (ReadToEnd sample_env_lines))
  = {[ "TAPO_HOST" := "10.0.0.7"; "TAPO_USER" := "viewer";
       "TAPO_PASSWORD" := "p=ss w0rd" ]}.
Proof. vm_compute. reflexivity. Qed.

Example sample_main_start :
  main_start (fst (load_env_file (ReadToEnd sample_env_lines))) (fun _ => None) []
  = Connect "10.0.0.7" "viewer" "p=ss w0rd".
Proof. vm_compute. reflexivity. Qed.

Example move_by_angle_quarter_turn :
  move_by_angle no_other_digits (fun _ => Answered (Some 0)) (Some (" 90 " +:+ nl))
  = [SayMoving 90; CallMoveMotorStep 90 (Answered (Some 0)); SayMoved 90].
Proof. reflexivity. Qed.

Example move_by_angle_full_turn :
  move_by_angle no_other_digits (fun _ => Answered (Some 0)) (Some "360")
  = [SayOutOfRange].
Proof. reflexivity. Qed.

(** X18 on the sample file. *)
Lemma env_keys_have_no_equals_sign_witness :
  is_Some (fst (load_env_file (ReadToEnd sample_env_lines)) !! "TAPO_PASSWORD")
  /\ every_char (fun c => Ascii.eqb c "=" = false) "TAPO_PASSWORD".
Proof.
  assert (H : is_Some (fst (load_env_file (ReadToEnd sample_env_lines))
                         !! "TAPO_PASSWORD"))
    by (exists "p=ss w0rd"; vm_compute; reflexivity).
  split; [exact H|].
  exact (env_keys_have_no_equals_sign (ReadToEnd sample_env_lines) "TAPO_PASSWORD" H).
Defined.

(** X19 on a password with a space and an equals sign, after the sample
    file. *)
Lemma env_quoted_value_is_kept_witness :
  env_lines (sample_env_lines
             ++ ["TAPO_PASSWORD" +:+ String "=" (String "'" ("a = b" +:+ String "'" nl))])
    !! "TAPO_PASSWORD" = Some "a = b".
Proof.
  apply (env_quoted_value_is_kept sample_env_lines "TAPO_PASSWORD" "a = b" "'" nl).
  - split; [discriminate | repeat split].
  - right. reflexivity.
  - right. reflexivity.
Defined.

